(** * The canvas molecule viewer of public/js/simple3d.js

    A shallow embedding of class [Simple3DMolecule]: its scene filter
    ([setMolecule]), its camera ([project3D], [setView], the zoom
    operations), its pointer handlers, its spin loop and its [render]
    pipeline, followed by the properties proved about them.

    Numbers.  A JavaScript number is modelled by [jsnum]: a real number,
    one of the two infinities, or NaN.  Arithmetic follows IEEE-754 on the
    special values (division by zero, [Infinity - Infinity], NaN
    propagation) and is exact on finite values: rounding, overflow and the
    sign of zero are not modelled (a zero divisor counts as [+0]). *)

From Stdlib Require Import Reals Lra ZArith Lia.
From Stdlib Require Import Sorting.Sorted Sorting.Permutation.
From Stdlib Require Import Strings.Ascii Strings.HexString.
From stdpp Require Import base gmap strings list pretty.

(** ** JavaScript numbers *)

Module JsNum.

Inductive jsnum : Type :=
  | Finite (r : R)
  | PInf
  | NInf
  | NaN.

Definition Rsign (r : R) : comparison :=
  if Rlt_dec r 0 then Lt else if Rlt_dec 0 r then Gt else Eq.

(** The infinity of a given sign; a zero sign stands for [0 * Infinity]
    and [0 / 0]. *)
Definition inf_of_sign (s : comparison) : jsnum :=
  match s with Lt => NInf | Gt => PInf | Eq => NaN end.

Definition jsneg (a : jsnum) : jsnum :=
  match a with
  | Finite r => Finite (- r)
  | PInf => NInf
  | NInf => PInf
  | NaN => NaN
  end.

Definition jsadd (a b : jsnum) : jsnum :=
  match a, b with
  | NaN, _ | _, NaN => NaN
  | Finite x, Finite y => Finite (x + y)
  | PInf, NInf | NInf, PInf => NaN
  | PInf, _ | _, PInf => PInf
  | NInf, _ | _, NInf => NInf
  end.

Definition jssub (a b : jsnum) : jsnum := jsadd a (jsneg b).

Definition jsmul (a b : jsnum) : jsnum :=
  match a, b with
  | NaN, _ | _, NaN => NaN
  | Finite x, Finite y => Finite (x * y)
  | Finite x, PInf | PInf, Finite x => inf_of_sign (Rsign x)
  | Finite x, NInf | NInf, Finite x => inf_of_sign (CompOpp (Rsign x))
  | PInf, PInf | NInf, NInf => PInf
  | PInf, NInf | NInf, PInf => NInf
  end.

Definition jsdiv (a b : jsnum) : jsnum :=
  match a, b with
  | NaN, _ | _, NaN => NaN
  | Finite x, Finite y =>
      if Req_dec_T y 0 then inf_of_sign (Rsign x) else Finite (x / y)
  | Finite _, (PInf | NInf) => Finite 0
  | PInf, Finite y => if Rlt_dec y 0 then NInf else PInf
  | NInf, Finite y => if Rlt_dec y 0 then PInf else NInf
  | (PInf | NInf), (PInf | NInf) => NaN
  end.

(** [a > b] and [a < b]; any comparison with NaN is false. *)
Definition jsgt (a b : jsnum) : bool :=
  match a, b with
  | NaN, _ | _, NaN => false
  | Finite x, Finite y => if Rlt_dec y x then true else false
  | PInf, PInf | NInf, _ | _, PInf => false
  | PInf, _ | _, NInf => true
  end.

Definition jslt (a b : jsnum) : bool := jsgt b a.

Definition Math_min (a b : jsnum) : jsnum :=
  match a, b with
  | NaN, _ | _, NaN => NaN
  | _, _ => if jslt b a then b else a
  end.

Definition Math_max (a b : jsnum) : jsnum :=
  match a, b with
  | NaN, _ | _, NaN => NaN
  | _, _ => if jsgt b a then b else a
  end.

Definition Math_cos (a : jsnum) : jsnum :=
  match a with Finite r => Finite (cos r) | _ => NaN end.

Definition Math_sin (a : jsnum) : jsnum :=
  match a with Finite r => Finite (sin r) | _ => NaN end.

Definition Math_PI : jsnum := Finite PI.

Definition is_finite (a : jsnum) : Prop :=
  match a with Finite _ => True | _ => False end.

(** A property slot of an object: absent ([undefined]) or a number. *)
Inductive jsval : Type :=
  | JUndefined
  | JNumber (n : jsnum).

Definition ToNumber (v : jsval) : jsnum :=
  match v with JUndefined => NaN | JNumber n => n end.

End JsNum.
Import JsNum.

Declare Scope js_scope.
Delimit Scope js_scope with js.
Bind Scope js_scope with jsnum.
Infix "+" := jsadd : js_scope.
Infix "-" := jssub : js_scope.
Infix "*" := jsmul : js_scope.
Infix "/" := jsdiv : js_scope.

(** ** Object literals and the prototype chain

    [obj[key]] on an object literal finds the literal's own property, or
    else a member inherited from [Object.prototype]; every inherited
    member is a function or an object, hence truthy and not a number. *)

Definition Object_prototype_keys : list string :=
  [ "constructor"; "hasOwnProperty"; "isPrototypeOf"; "propertyIsEnumerable";
    "toLocaleString"; "toString"; "valueOf"; "__proto__";
    "__defineGetter__"; "__defineSetter__"; "__lookupGetter__";
    "__lookupSetter__" ]%string.

Inductive property (A : Type) : Type :=
  | Own (a : A)
  | Inherited (key : string)
  | Missing.
Arguments Own {A} a.
Arguments Inherited {A} key.
Arguments Missing {A}.

Fixpoint own_property {A : Type} (o : list (string * A)) (key : string)
  : option A :=
  match o with
  | [] => None
  | (k, a) :: o' => if String.eqb k key then Some a else own_property o' key
  end.

Definition get_property {A : Type} (o : list (string * A)) (key : string)
  : property A :=
  match own_property o key with
  | Some a => Own a
  | None =>
      if bool_decide (key ∈ Object_prototype_keys) then Inherited key
      else Missing
  end.

(** ** Data model *)

Record Atom : Type := {
  element : string;
  atom_x : jsnum;
  atom_y : jsnum;
  atom_z : jsnum
}.

Record Bond : Type := {
  bond_from : Z;
  bond_to : Z;
  bond_order : Z
}.

Record Molecule : Type := {
  mol_id : string;
  mol_name : string;
  mol_formula : string;
  mol_atoms : list Atom;
  mol_bonds : list Bond
}.

(** An element of [this.atoms]: [{...atom, originalIndex, visible}]. *)
Record SceneAtom : Type := {
  atom : Atom;
  originalIndex : nat;
  visible : bool
}.

(** The value returned by [project3D]. *)
Record Point : Type := {
  pos_x : jsnum;
  pos_y : jsnum;
  pos_z : jsnum
}.

(** An element of [projectedAtoms] in [render]: [{...atom, pos}]. *)
Record ProjectedAtom : Type := {
  scene_atom : SceneAtom;
  pos : Point
}.

(** The object held in [this.rotation].  [rot_member] is [None] for an
    object literal [{x, y}] and [Some key] when the object is the member
    [key] of [Object.prototype], which has no [x] and no [y] of its own
    until one is assigned.  The class reads [x] and [y] only as numbers
    ([Math.cos], [Math.sin], [+=]), where an undefined slot and a slot
    holding NaN give the same result. *)
Record Rotation : Type := {
  rot_x : jsval;
  rot_y : jsval;
  rot_member : option string
}.

Definition rotation_literal (x y : jsnum) : Rotation :=
  {| rot_x := JNumber x; rot_y := JNumber y; rot_member := None |}.

(** A value used as a canvas colour: a CSS colour string, or the
    [Object.prototype] member that an inherited lookup returned. *)
Inductive Color : Type :=
  | Css (s : string)
  | NotAColor (key : string).

(** Calls on the 2D context, one constructor per drawn shape. *)
Inductive CanvasOp : Type :=
  | ClearRect (x y w h : jsnum)
  | FillBackground (w h : jsnum)
  | StrokeBond (x1 y1 x2 y2 : jsnum) (lineWidth : Z)
  | FillShadow (cx cy radius : jsnum)
  | FillSphere (cx cy radius : jsnum) (color : Color)
  | StrokeOutline (cx cy radius : jsnum)
  | FillLabel (text : string) (x y : jsnum) (fillStyle : string) (px : jsnum).

(** The fields of a [Simple3DMolecule], the variables captured by the
    handlers of [setupInteraction], the calls made on [ctx] so far, and
    the number of [spin] callbacks waiting in [requestAnimationFrame]. *)
Record Simple3DMolecule : Type := {
  width : jsnum;
  height : jsnum;
  atoms : list SceneAtom;
  bonds : list Bond;
  rotation : Rotation;
  zoom : jsnum;
  spinning : bool;
  isDragging : bool;
  lastX : jsnum;
  lastY : jsnum;
  ctx : list CanvasOp;
  animationFrames : nat
}.

Definition set_scene (a : list SceneAtom) (b : list Bond)
  (v : Simple3DMolecule) : Simple3DMolecule :=
  {| width := width v; height := height v; atoms := a; bonds := b;
     rotation := rotation v; zoom := zoom v; spinning := spinning v;
     isDragging := isDragging v; lastX := lastX v; lastY := lastY v;
     ctx := ctx v; animationFrames := animationFrames v |}.

Definition set_rotation (r : Rotation) (v : Simple3DMolecule)
  : Simple3DMolecule :=
  {| width := width v; height := height v; atoms := atoms v;
     bonds := bonds v; rotation := r; zoom := zoom v;
     spinning := spinning v; isDragging := isDragging v;
     lastX := lastX v; lastY := lastY v; ctx := ctx v;
     animationFrames := animationFrames v |}.

Definition set_zoom (k : jsnum) (v : Simple3DMolecule) : Simple3DMolecule :=
  {| width := width v; height := height v; atoms := atoms v;
     bonds := bonds v; rotation := rotation v; zoom := k;
     spinning := spinning v; isDragging := isDragging v;
     lastX := lastX v; lastY := lastY v; ctx := ctx v;
     animationFrames := animationFrames v |}.

Definition set_spinning (b : bool) (v : Simple3DMolecule)
  : Simple3DMolecule :=
  {| width := width v; height := height v; atoms := atoms v;
     bonds := bonds v; rotation := rotation v; zoom := zoom v;
     spinning := b; isDragging := isDragging v;
     lastX := lastX v; lastY := lastY v; ctx := ctx v;
     animationFrames := animationFrames v |}.

Definition set_drag (d : bool) (lx ly : jsnum) (v : Simple3DMolecule)
  : Simple3DMolecule :=
  {| width := width v; height := height v; atoms := atoms v;
     bonds := bonds v; rotation := rotation v; zoom := zoom v;
     spinning := spinning v; isDragging := d;
     lastX := lx; lastY := ly; ctx := ctx v;
     animationFrames := animationFrames v |}.

Definition draw (ops : list CanvasOp) (v : Simple3DMolecule)
  : Simple3DMolecule :=
  {| width := width v; height := height v; atoms := atoms v;
     bonds := bonds v; rotation := rotation v; zoom := zoom v;
     spinning := spinning v; isDragging := isDragging v;
     lastX := lastX v; lastY := lastY v; ctx := ctx v ++ ops;
     animationFrames := animationFrames v |}.

Definition set_frames (n : nat) (v : Simple3DMolecule) : Simple3DMolecule :=
  {| width := width v; height := height v; atoms := atoms v;
     bonds := bonds v; rotation := rotation v; zoom := zoom v;
     spinning := spinning v; isDragging := isDragging v;
     lastX := lastX v; lastY := lastY v; ctx := ctx v;
     animationFrames := n |}.

(** [new Simple3DMolecule(canvasId)] on a canvas of the given size. *)
Definition constructor (offsetWidth offsetHeight : jsnum) : Simple3DMolecule :=
  {| width := offsetWidth; height := offsetHeight; atoms := []; bonds := [];
     rotation := rotation_literal (Finite 0.5) (Finite 0.5);
     zoom := Finite 1; spinning := false;
     isDragging := false; lastX := Finite 0; lastY := Finite 0;
     ctx := []; animationFrames := 0 |}.

(** ** Camera transform *)

Definition project3D (v : Simple3DMolecule) (x y z : jsnum) : Point :=
  let cosX := Math_cos (ToNumber (rot_x (rotation v))) in
  let sinX := Math_sin (ToNumber (rot_x (rotation v))) in
  let cosY := Math_cos (ToNumber (rot_y (rotation v))) in
  let sinY := Math_sin (ToNumber (rot_y (rotation v))) in
  let x1 := (x * cosY - z * sinY)%js in
  let z1 := (x * sinY + z * cosY)%js in
  let y1 := (y * cosX - z1 * sinX)%js in
  let z2 := (y * sinX + z1 * cosX)%js in
  let scale := (Finite 100 * zoom v)%js in
  let perspective := Finite 5 in
  let scaleFactor := (perspective / (perspective + z2))%js in
  {| pos_x := (width v / Finite 2 + x1 * scale * scaleFactor)%js;
     pos_y := (height v / Finite 2 - y1 * scale * scaleFactor)%js;
     pos_z := z2 |}.

(** ** Appearance table *)

Definition colors : list (string * string) :=
  [ ("H", "#FFFFFF"); ("C", "#909090"); ("N", "#3050F8"); ("O", "#FF0D0D");
    ("F", "#90E050"); ("Cl", "#1FF01F"); ("Br", "#A62929"); ("I", "#940094");
    ("P", "#FF8000"); ("S", "#FFFF30"); ("B", "#FFB5B5");
    ("Si", "#F0C8A0") ]%string.

Definition getElementColor (element : string) : Color :=
  match get_property colors element with
  | Own c => Css c
  | Inherited key => NotAColor key
  | Missing => Css "#808080"
  end.

Definition radii : list (string * R) :=
  [ ("H"%string, 0.31); ("C"%string, 0.70); ("N"%string, 0.65);
    ("O"%string, 0.60); ("F"%string, 0.50); ("Cl"%string, 1.00);
    ("Br"%string, 1.20); ("I"%string, 1.40); ("P"%string, 1.00);
    ("S"%string, 1.00); ("B"%string, 0.90); ("Si"%string, 1.10) ]%R.

Definition getElementRadius (element : string) : jsnum :=
  match get_property radii element with
  | Own r => (Finite r * Finite 20)%js
  | Inherited _ => (NaN * Finite 20)%js
  | Missing => (Finite 0.70 * Finite 20)%js
  end.

(** ** Render pipeline *)

(** [Array.prototype.sort(cmp)]: a stable sort; [a] stays before [b]
    unless [cmp(a, b) > 0] (a NaN result counts as [+0]). *)
Fixpoint sort_insert {A : Type} (cmp : A -> A -> jsnum) (a : A) (l : list A)
  : list A :=
  match l with
  | [] => [a]
  | b :: l' =>
      if jsgt (cmp a b) (Finite 0) then b :: sort_insert cmp a l'
      else a :: b :: l'
  end.

Definition Array_sort {A : Type} (cmp : A -> A -> jsnum) (l : list A)
  : list A :=
  foldr (sort_insert cmp) [] l.

Definition project_atom (v : Simple3DMolecule) (a : SceneAtom) : ProjectedAtom :=
  {| scene_atom := a;
     pos := project3D v (atom_x (atom a)) (atom_y (atom a)) (atom_z (atom a)) |}.

Definition depth (a : ProjectedAtom) : jsnum := pos_z (pos a).

Definition by_depth (a b : ProjectedAtom) : jsnum := (depth a - depth b)%js.

Definition has_index (i : Z) (a : ProjectedAtom) : bool :=
  Z.eqb (Z.of_nat (originalIndex (scene_atom a))) i.

Definition draw_bond (projectedAtoms : list ProjectedAtom) (bond : Bond)
  : list CanvasOp :=
  match List.find (has_index (bond_from bond)) projectedAtoms,
        List.find (has_index (bond_to bond)) projectedAtoms with
  | Some fromAtom, Some toAtom =>
      [ StrokeBond (pos_x (pos fromAtom)) (pos_y (pos fromAtom))
                   (pos_x (pos toAtom)) (pos_y (pos toAtom))
                   (bond_order bond * 2) ]
  | _, _ => []
  end.

Definition draw_atom (v : Simple3DMolecule) (a : ProjectedAtom)
  : list CanvasOp :=
  let el := element (atom (scene_atom a)) in
  let radius := (getElementRadius el * zoom v)%js in
  let px := pos_x (pos a) in
  let py := pos_y (pos a) in
  [ FillShadow (px + Finite 2)%js (py + Finite 2)%js radius;
    FillSphere px py radius (getElementColor el);
    StrokeOutline px py radius;
    FillLabel el px py (if String.eqb el "H" then "#000000" else "#FFFFFF")
              (Math_max (Finite 12) radius) ].

Definition projectedAtoms (v : Simple3DMolecule) : list ProjectedAtom :=
  Array_sort by_depth (map (project_atom v) (atoms v)).

(** The calls one [render()] makes on the context, in order. *)
Definition render_ops (v : Simple3DMolecule) : list CanvasOp :=
  [ ClearRect (Finite 0) (Finite 0) (width v) (height v);
    FillBackground (width v) (height v) ]
  ++ flat_map (draw_bond (projectedAtoms v)) (bonds v)
  ++ flat_map (draw_atom v) (projectedAtoms v).

Definition render (v : Simple3DMolecule) : Simple3DMolecule :=
  draw (render_ops v) v.

(** ** Scene state *)

Definition clear (v : Simple3DMolecule) : Simple3DMolecule :=
  draw [ClearRect (Finite 0) (Finite 0) (width v) (height v)]
       (set_scene [] [] v).

Inductive Exception : Type := TypeError.

(** How a call ends: normally, or by throwing, with the object as the
    call left it. *)
Inductive Completion : Type :=
  | Normal (v : Simple3DMolecule)
  | Throw (e : Exception) (v : Simple3DMolecule).

Definition state_of (c : Completion) : Simple3DMolecule :=
  match c with Normal v | Throw _ v => v end.

(** An argument of a call: omitted ([undefined]), [null], or an object. *)
Inductive Arg (A : Type) : Type :=
  | Undefined
  | Null
  | Object (a : A).
Arguments Undefined {A}.
Arguments Null {A}.
Arguments Object {A} a.

Definition tag_atom (elementVisibility : gmap string bool)
  (index : nat) (a : Atom) : SceneAtom :=
  {| atom := a; originalIndex := index;
     visible := bool_decide (elementVisibility !! element a ≠ Some false) |}.

Definition visible_atoms (elementVisibility : gmap string bool)
  (m : Molecule) : list SceneAtom :=
  filter (λ a, visible a = true) (imap (tag_atom elementVisibility) (mol_atoms m)).

Definition visible_bonds (scene : list SceneAtom) (m : Molecule) : list Bond :=
  let visibleIndices : gset Z :=
    list_to_set (map (λ a, Z.of_nat (originalIndex a)) scene) in
  filter (λ bond, bond_from bond ∈ visibleIndices ∧ bond_to bond ∈ visibleIndices)
         (mol_bonds m).

Definition setMolecule (molecule : Arg Molecule)
  (elementVisibility : Arg (gmap string bool)) (v : Simple3DMolecule)
  : Completion :=
  let v := clear v in
  match molecule with
  | Undefined | Null => Throw TypeError v
  | Object m =>
      let scene mask :=
        let a := visible_atoms mask m in
        Normal (render (set_scene a (visible_bonds a m) v)) in
      match elementVisibility with
      | Undefined => scene ∅
      | Object mask => scene mask
      | Null =>
          match mol_atoms m with
          | [] => scene ∅
          | _ :: _ => Throw TypeError v
          end
      end
  end.

(** ** Interaction controller: the handlers of [setupInteraction] *)

Definition on_mousedown (clientX clientY : jsnum) (v : Simple3DMolecule)
  : Simple3DMolecule :=
  set_drag true clientX clientY v.

(** [this.rotation.y += d] and [this.rotation.x += d]: the slot is read
    as a number and written back to the same object. *)
Definition add_rot_y (d : jsnum) (r : Rotation) : Rotation :=
  {| rot_x := rot_x r; rot_y := JNumber (ToNumber (rot_y r) + d)%js;
     rot_member := rot_member r |}.

Definition add_rot_x (d : jsnum) (r : Rotation) : Rotation :=
  {| rot_x := JNumber (ToNumber (rot_x r) + d)%js; rot_y := rot_y r;
     rot_member := rot_member r |}.

Definition on_mousemove (clientX clientY : jsnum) (v : Simple3DMolecule)
  : Simple3DMolecule :=
  if isDragging v then
    let dx := (clientX - lastX v)%js in
    let dy := (clientY - lastY v)%js in
    let r := add_rot_x (dy * Finite 0.01)%js
               (add_rot_y (dx * Finite 0.01)%js (rotation v)) in
    render (set_drag true clientX clientY (set_rotation r v))
  else v.

Definition on_mouseup (v : Simple3DMolecule) : Simple3DMolecule :=
  set_drag false (lastX v) (lastY v) v.

Definition on_wheel (deltaY : jsnum) (v : Simple3DMolecule)
  : Simple3DMolecule :=
  let delta := if jsgt deltaY (Finite 0) then Finite 0.9 else Finite 1.1 in
  let k := (zoom v * delta)%js in
  render (set_zoom (Math_max (Finite 0.1) (Math_min k (Finite 5))) v).

(** ** Camera mutators *)

Definition views : list (string * (jsnum * jsnum)) :=
  [ ("front", (Finite 0, Finite 0));
    ("top", (Math_PI / Finite 2, Finite 0)%js);
    ("side", (Finite 0, Math_PI / Finite 2)%js);
    ("iso", (Finite 0.5, Finite 0.5)) ]%string.

Definition setView (view : string) (v : Simple3DMolecule) : Simple3DMolecule :=
  match get_property views view with
  | Own (x, y) => render (set_rotation (rotation_literal x y) v)
  | Inherited key =>
      render (set_rotation {| rot_x := JUndefined; rot_y := JUndefined;
                              rot_member := Some key |} v)
  | Missing => v
  end.

Definition resetView (v : Simple3DMolecule) : Simple3DMolecule :=
  render (set_zoom (Finite 1)
            (set_rotation (rotation_literal (Finite 0.5) (Finite 0.5)) v)).

Definition zoomIn (v : Simple3DMolecule) : Simple3DMolecule :=
  render (set_zoom (Math_min (zoom v * Finite 1.2)%js (Finite 5)) v).

Definition zoomOut (v : Simple3DMolecule) : Simple3DMolecule :=
  render (set_zoom (Math_max (zoom v * Finite 0.8)%js (Finite 0.1)) v).

(** ** Spin loop *)

(** The closure [spin] of [startSpin]; [requestAnimationFrame(spin)] adds
    one waiting callback. *)
Definition spin (v : Simple3DMolecule) : Simple3DMolecule :=
  if spinning v then
    let v := render (set_rotation (add_rot_y (Finite 0.02) (rotation v)) v) in
    set_frames (S (animationFrames v)) v
  else v.

Definition startSpin (v : Simple3DMolecule) : Simple3DMolecule :=
  spin (set_spinning true v).

Definition stopSpin (v : Simple3DMolecule) : Simple3DMolecule :=
  set_spinning false v.

Definition toggleSpin (v : Simple3DMolecule) : Simple3DMolecule :=
  if spinning v then stopSpin v else startSpin v.

(** The host fires one waiting [spin] callback, if there is one. *)
Definition animation_frame (v : Simple3DMolecule) : Simple3DMolecule :=
  match animationFrames v with
  | O => v
  | S n => spin (set_frames n v)
  end.

(** ** Events *)

Inductive Event : Type :=
  | MouseDown (clientX clientY : jsnum)
  | MouseMove (clientX clientY : jsnum)
  | MouseUp
  | Wheel (deltaY : jsnum)
  | SetView (view : string)
  | ResetView
  | ZoomIn
  | ZoomOut
  | ToggleSpin
  | AnimationFrame.

Definition handle (e : Event) (v : Simple3DMolecule) : Simple3DMolecule :=
  match e with
  | MouseDown cx cy => on_mousedown cx cy v
  | MouseMove cx cy => on_mousemove cx cy v
  | MouseUp => on_mouseup v
  | Wheel deltaY => on_wheel deltaY v
  | SetView view => setView view v
  | ResetView => resetView v
  | ZoomIn => zoomIn v
  | ZoomOut => zoomOut v
  | ToggleSpin => toggleSpin v
  | AnimationFrame => animation_frame v
  end.

Definition run (es : list Event) (v : Simple3DMolecule) : Simple3DMolecule :=
  foldl (λ v e, handle e v) v es.

(** ** Sample data *)

(** The water molecule of the molecule data set. *)
Definition water : Molecule :=
  {| mol_id := "water"; mol_name := "Water"; mol_formula := "H2O";
     mol_atoms :=
       [ {| element := "O"; atom_x := Finite 0; atom_y := Finite 0;
            atom_z := Finite 0 |};
         {| element := "H"; atom_x := Finite 0.96; atom_y := Finite 0;
            atom_z := Finite 0 |};
         {| element := "H"; atom_x := Finite (-0.24); atom_y := Finite 0.93;
            atom_z := Finite 0 |} ];
     mol_bonds :=
       [ {| bond_from := 0; bond_to := 1; bond_order := 1 |};
         {| bond_from := 0; bond_to := 2; bond_order := 1 |} ] |}.



(** A viewer on an 800 by 600 canvas, as the page creates it. *)
Definition viewer0 : Simple3DMolecule := constructor (Finite 800) (Finite 600).

(** ** Predicates used in the statements *)

(** The stored zoom is a number of the interval [0.1, 5]. *)
Definition zoom_ok (v : Simple3DMolecule) : Prop :=
  ∃ k : R, zoom v = Finite k ∧ (0.1 <= k <= 5)%R.

(** The camera and the surface hold the given finite numbers. *)
Definition has_camera (v : Simple3DMolecule) (w h rx ry k : R) : Prop :=
  width v = Finite w ∧ height v = Finite h ∧
  rot_x (rotation v) = JNumber (Finite rx) ∧
  rot_y (rotation v) = JNumber (Finite ry) ∧
  zoom v = Finite k.

(** Every bond of the scene has both endpoints among the scene's atoms. *)
Definition scene_linked (v : Simple3DMolecule) : Prop :=
  ∀ b, b ∈ bonds v →
    (∃ a, a ∈ atoms v ∧ Z.of_nat (originalIndex a) = bond_from b) ∧
    (∃ a, a ∈ atoms v ∧ Z.of_nat (originalIndex a) = bond_to b).

(** The states the class can be in: built by the constructor and changed
    only through its methods and handlers. *)
Inductive reachable : Simple3DMolecule → Prop :=
  | reachable_new (w h : jsnum) : reachable (constructor w h)
  | reachable_handle (e : Event) (v : Simple3DMolecule) :
      reachable v → reachable (handle e v)
  | reachable_clear (v : Simple3DMolecule) :
      reachable v → reachable (clear v)
  | reachable_setMolecule (molecule : Arg Molecule)
      (elementVisibility : Arg (gmap string bool)) (v : Simple3DMolecule) :
      reachable v → reachable (state_of (setMolecule molecule elementVisibility v)).



#[global] Instance jsnum_eq_dec : EqDecision jsnum.
Proof.
  intros a b. unfold Decision.
  destruct a as [x | | |], b as [y | | |];
    try (right; discriminate); try (left; reflexivity).
  destruct (Req_dec_T x y); [left; congruence | right; congruence].
Defined.


(** One display refresh: the host runs the callbacks that were waiting
    when the refresh began; a callback requested meanwhile waits for the
    next refresh. *)
Definition display_refresh (v : Simple3DMolecule) : Simple3DMolecule :=
  Nat.iter (animationFrames v) animation_frame v.

(** Pointer moves through the given points. *)
Definition mouse_moves (pts : list (jsnum * jsnum)) : list Event :=
  map (λ p, MouseMove p.1 p.2) pts.

Definition finite_point (p : R * R) : jsnum * jsnum := (Finite p.1, Finite p.2).

(** The scene entry of the molecule's atom at position [i]. *)
Definition scene_atom_at (i : nat) (a : Atom) : SceneAtom :=
  {| atom := a; originalIndex := i; visible := true |}.

(** [mask] does not hide the element. *)
Definition shown (mask : gmap string bool) (el : string) : Prop :=
  mask !! el ≠ Some false.

(** Both ends of the bond are positions of the atom array. *)
Definition bond_in_range (m : Molecule) (b : Bond) : Prop :=
  (0 <= bond_from b < Z.of_nat (length (mol_atoms m)))%Z ∧
  (0 <= bond_to b < Z.of_nat (length (mol_atoms m)))%Z.

#[global] Instance bond_in_range_dec (m : Molecule) (b : Bond) :
  Decision (bond_in_range m b).
Proof. unfold bond_in_range. apply _. Defined.

(** ** Colour lightening *)

(** Decimal digits and letters of base 16, as [Number.prototype.toString]
    writes them. *)
Definition hexdigit (d : Z) : ascii :=
  match d with
  | 0 => "0" | 1 => "1" | 2 => "2" | 3 => "3" | 4 => "4" | 5 => "5"
  | 6 => "6" | 7 => "7" | 8 => "8" | 9 => "9" | 10 => "a" | 11 => "b"
  | 12 => "c" | 13 => "d" | 14 => "e" | _ => "f"
  end%Z%char.

(** [n.toString(16)] for an integer [n]. *)
Definition toString16 (n : Z) : string :=
  match n with
  | Z0 => "0"
  | Zpos p => HexString.Raw.of_pos p ""
  | Zneg p => String "-" (HexString.Raw.of_pos p "")
  end.

(** [s.slice(1)]. *)
Definition slice1 (s : string) : string :=
  match s with
  | EmptyString => EmptyString
  | String _ s' => s'
  end.

(** [s.replace('#', '')]: the first ['#'] is removed. *)
Fixpoint replace_hash (s : string) : string :=
  match s with
  | EmptyString => EmptyString
  | String c s' => if Ascii.eqb c "#" then s' else String c (replace_hash s')
  end.

Definition is_white_space (c : ascii) : bool :=
  match Ascii.N_of_ascii c with
  | 9 | 10 | 11 | 12 | 13 | 32 => true
  | _ => false
  end%N.

Fixpoint trim_start (s : string) : string :=
  match s with
  | String c s' => if is_white_space c then trim_start s' else s
  | EmptyString => EmptyString
  end.

(** The value of the longest prefix of base-16 digits; [None] when the
    string does not start with a digit. *)
Fixpoint hex_prefix (s : string) (acc : option Z) : option Z :=
  match s with
  | String c s' =>
      match HexString.ascii_to_digit c with
      | Some d => hex_prefix s' (Some (16 * default 0%Z acc + Z.of_N d)%Z)
      | None => acc
      end
  | EmptyString => acc
  end.

Definition strip_0x (s : string) : string :=
  match s with
  | String "0" (String "x" s') | String "0" (String "X" s') => s'
  | _ => s
  end.

(** [parseInt(s, 16)]; [None] stands for NaN. *)
Definition parseInt16 (s : string) : option Z :=
  match trim_start s with
  | String "-" s' => Z.opp <$> hex_prefix (strip_0x s') None
  | String "+" s' => hex_prefix (strip_0x s') None
  | s' => hex_prefix (strip_0x s') None
  end.

(** The 32-bit integer that [>>] and [&] work on; NaN counts as 0. *)
Definition ToInt32 (n : option Z) : Z :=
  match n with
  | None => 0
  | Some z => (z + 2 ^ 31) mod 2 ^ 32 - 2 ^ 31
  end%Z.

(** [Math.round(2.55 * percent)] for an integer [percent], in exact
    arithmetic: the integer nearest to [255 * percent / 100], halves
    rounded up. *)
Definition lighten_amount (percent : Z) : Z := ((255 * percent + 50) / 100)%Z.

(** [lightenColor(color, percent)]; [None] when [color] is not a string
    and [color.replace] throws a TypeError. *)
Definition lightenColor (color : Color) (percent : Z) : option string :=
  match color with
  | NotAColor _ => None
  | Css color =>
      let num := ToInt32 (parseInt16 (replace_hash color)) in
      let amt := lighten_amount percent in
      let R := Z.min 255 (Z.shiftr num 16 + amt) in
      let G := Z.min 255 (Z.land (Z.shiftr num 8) 255 + amt) in
      let B := Z.min 255 (Z.land num 255 + amt) in
      Some (String "#"
              (slice1 (toString16 (16777216 + R * 65536 + G * 256 + B))))
  end%Z.

(** Two base-16 digits of a channel. *)
Definition hex2 (c : Z) : string :=
  String (hexdigit (c / 16)) (String (hexdigit (c mod 16)) EmptyString).

(** [#rrggbb] for three channels. *)
Definition css_rgb (r g b : Z) : string :=
  String "#" (hex2 r ++ hex2 g ++ hex2 b).

(** ** The API server

    The routes of server.js (and of [createTestApp] in the API tests, which
    repeats them) over the two in-memory maps.  A map is kept as the list
    of its entries in insertion order, as [Map] iterates them.  What the
    libraries compute is a parameter of the model: [jwt_verify] gives the
    user name in a token's payload at a given time, or nothing when
    verification fails; [jwt_sign] makes a token; [bcrypt_hash] and
    [bcrypt_compare] give nothing when the promise is rejected. *)

(** A value taken from a JSON body or from a token payload.  An object
    or array is kept as its JSON text. *)
Inductive Value : Type :=
  | VUndefined
  | VNull
  | VBool (b : bool)
  | VNumber (n : jsnum)
  | VString (s : string)
  | VObject (json : string).

Definition truthy (v : Value) : bool :=
  match v with
  | VUndefined | VNull => false
  | VBool b => b
  | VNumber (Finite r) => if Req_dec_T r 0 then false else true
  | VNumber NaN => false
  | VNumber _ => true
  | VString s => negb (String.eqb s "")
  | VObject _ => true
  end.

(** [a === b] for values that come from two different requests: two
    objects are then never the same object. *)
Definition strict_equal (a b : Value) : bool :=
  match a, b with
  | VUndefined, VUndefined | VNull, VNull => true
  | VBool x, VBool y => Bool.eqb x y
  | VNumber (Finite x), VNumber (Finite y) =>
      if Req_dec_T x y then true else false
  | VNumber PInf, VNumber PInf | VNumber NInf, VNumber NInf => true
  | VString x, VString y => String.eqb x y
  | _, _ => false
  end.

(** The key comparison of [Map]: as [===], but NaN is equal to NaN. *)
Definition same_value_zero (a b : Value) : bool :=
  match a, b with
  | VNumber NaN, VNumber NaN => true
  | _, _ => strict_equal a b
  end.

Section JsMap.
Context {K V : Type}.
Variable eqb : K → K → bool.

Fixpoint map_get (m : list (K * V)) (k : K) : option V :=
  match m with
  | [] => None
  | (k', v) :: m' => if eqb k' k then Some v else map_get m' k
  end.

Definition map_has (m : list (K * V)) (k : K) : bool :=
  match map_get m k with Some _ => true | None => false end.

(** [m.set(k, v)]: an existing key keeps its place, a new key goes last. *)
Fixpoint map_set (m : list (K * V)) (k : K) (v : V) : list (K * V) :=
  match m with
  | [] => [(k, v)]
  | (k', v') :: m' =>
      if eqb k' k then (k', v) :: m' else (k', v') :: map_set m' k v
  end.

Fixpoint map_delete (m : list (K * V)) (k : K) : list (K * V) :=
  match m with
  | [] => []
  | (k', v') :: m' => if eqb k' k then m' else (k', v') :: map_delete m' k
  end.

Definition map_values (m : list (K * V)) : list V := map snd m.
End JsMap.

Record UserRecord : Type := {
  user_username : Value;
  user_password : string;
  user_createdAt : string
}.

Record Visualization : Type := {
  viz_id : string;
  viz_username : Value;
  viz_name : Value;
  viz_moleculeId : Value;
  viz_settings : Value;
  viz_createdAt : string
}.

(** The two maps of the server. *)
Record Server : Type := {
  users : list (Value * UserRecord);
  savedVisualizations : list (string * Visualization)
}.

Inductive Body : Type :=
  | ErrorBody (error : string)
  | TokenBody (token : string) (username : Value)
  | VisualizationsBody (vs : list Visualization)
  | VisualizationBody (v : Visualization)
  | SuccessBody.

Record Response : Type := {
  status : nat;
  body : Body
}.

(** [s.split(' ')]. *)
Fixpoint split_space (s : string) : list string :=
  match s with
  | EmptyString => [EmptyString]
  | String c s' =>
      if Ascii.eqb c " " then EmptyString :: split_space s'
      else match split_space s' with
           | h :: t => String c h :: t
           | [] => [String c EmptyString]
           end
  end.

(** [authHeader && authHeader.split(' ')[1]], when it is truthy. *)
Definition bearer_token (authHeader : option string) : option string :=
  match authHeader with
  | None => None
  | Some h =>
      if String.eqb h "" then None
      else match split_space h with
           | _ :: t :: _ => if String.eqb t "" then None else Some t
           | _ => None
           end
  end.

(** What the middleware does with a request: answer it, or pass it on
    with [req.user.username] set. *)
Inductive Auth : Type :=
  | Denied (r : Response)
  | Authenticated (username : Value).

(** What an [async] handler has done when it reaches its [await]. *)
Inductive Pending : Type :=
  | Answered (r : Response)
  | Awaiting.

Section Routes.
Variable jwt_verify : string → Z → option Value.
Variable jwt_sign : Value → Z → string.
Variable bcrypt_hash : Value → string → option string.
Variable bcrypt_compare : Value → string → option bool.

Definition authenticateToken (authHeader : option string) (now : Z) : Auth :=
  match bearer_token authHeader with
  | None => Denied {| status := 401; body := ErrorBody "Access token required" |}
  | Some token =>
      match jwt_verify token now with
      | None =>
          Denied {| status := 403; body := ErrorBody "Invalid or expired token" |}
      | Some username => Authenticated username
      end
  end.

(** GET /api/visualizations *)
Definition get_visualizations (authHeader : option string) (now : Z)
  (st : Server) : Response :=
  match authenticateToken authHeader now with
  | Denied r => r
  | Authenticated username =>
      {| status := 200;
         body := VisualizationsBody
                   (List.filter (λ v, strict_equal (viz_username v) username)
                      (map_values (savedVisualizations st))) |}
  end.

(** POST /api/visualizations; [now] is [Date.now()] and [iso] is
    [new Date().toISOString()]. *)
Definition post_visualizations (authHeader : option string)
  (name moleculeId settings : Value) (now : Z) (iso : string) (st : Server)
  : Server * Response :=
  match authenticateToken authHeader now with
  | Denied r => (st, r)
  | Authenticated username =>
      if negb (truthy name) || negb (truthy moleculeId) then
        (st, {| status := 400;
                body := ErrorBody "Name and molecule ID required" |})
      else
        let visualization :=
          {| viz_id := pretty now; viz_username := username;
             viz_name := name; viz_moleculeId := moleculeId;
             viz_settings := if truthy settings then settings else VObject "{}";
             viz_createdAt := iso |} in
        ({| users := users st;
            savedVisualizations :=
              map_set String.eqb (savedVisualizations st)
                      (viz_id visualization) visualization |},
         {| status := 200; body := VisualizationBody visualization |})
  end.

(** DELETE /api/visualizations/:id *)
Definition delete_visualizations (authHeader : option string) (id : string)
  (now : Z) (st : Server) : Server * Response :=
  match authenticateToken authHeader now with
  | Denied r => (st, r)
  | Authenticated username =>
      match map_get String.eqb (savedVisualizations st) id with
      | None =>
          (st, {| status := 404; body := ErrorBody "Visualization not found" |})
      | Some visualization =>
          if negb (strict_equal (viz_username visualization) username) then
            (st, {| status := 403; body := ErrorBody "Not authorized" |})
          else
            ({| users := users st;
                savedVisualizations :=
                  map_delete String.eqb (savedVisualizations st) id |},
             {| status := 200; body := SuccessBody |})
      end
  end.

(** POST /api/auth/register, up to [await bcrypt.hash(password, 10)]. *)
Definition register_begin (username password : Value) (st : Server) : Pending :=
  if negb (truthy username) || negb (truthy password) then
    Answered {| status := 400;
                body := ErrorBody "Username and password required" |}
  else if map_has same_value_zero (users st) username then
    Answered {| status := 400; body := ErrorBody "Username already exists" |}
  else Awaiting.

(** The rest of the handler, run when the hash is ready; [salt] is the
    salt that bcrypt drew. *)
Definition register_finish (username password : Value) (salt : string)
  (now : Z) (iso : string) (st : Server) : Server * Response :=
  match bcrypt_hash password salt with
  | None => (st, {| status := 500; body := ErrorBody "Registration failed" |})
  | Some hashedPassword =>
      ({| users :=
            map_set same_value_zero (users st) username
              {| user_username := username; user_password := hashedPassword;
                 user_createdAt := iso |};
          savedVisualizations := savedVisualizations st |},
       {| status := 200; body := TokenBody (jwt_sign username now) username |})
  end.

(** A registration that no other request interleaves with. *)
Definition register (username password : Value) (salt : string)
  (now : Z) (iso : string) (st : Server) : Server * Response :=
  match register_begin username password st with
  | Answered r => (st, r)
  | Awaiting => register_finish username password salt now iso st
  end.

(** POST /api/auth/login; the handler reads the stored hash before its
    [await] and writes nothing. *)
Definition login (username password : Value) (now : Z) (st : Server)
  : Response :=
  match map_get same_value_zero (users st) username with
  | None => {| status := 401; body := ErrorBody "Invalid credentials" |}
  | Some user =>
      match bcrypt_compare password (user_password user) with
      | None => {| status := 500; body := ErrorBody "Login failed" |}
      | Some false => {| status := 401; body := ErrorBody "Invalid credentials" |}
      | Some true =>
          {| status := 200; body := TokenBody (jwt_sign username now) username |}
      end
  end.
End Routes.

(** The ids of the store are distinct and every visualization is kept
    under its own id. *)
Definition store_ok (st : Server) : Prop :=
  NoDup (map fst (savedVisualizations st)) ∧
  Forall (λ e, viz_id e.2 = e.1) (savedVisualizations st).

(** A server that has just started. *)
Definition server0 : Server := {| users := []; savedVisualizations := [] |}.

(** Stand-ins for the libraries in the sample runs: a token is the user's
    name, and the hash of a password is the password. *)
Definition sample_verify (token : string) (now : Z) : option Value :=
  Some (VString token).

Definition sample_sign (username : Value) (now : Z) : string :=
  match username with VString s => s | _ => EmptyString end.

Definition sample_hash (password : Value) (salt : string) : option string :=
  match password with VString s => Some s | _ => None end.

Definition sample_compare (password : Value) (hash : string) : option bool :=
  match password with VString s => Some (String.eqb s hash) | _ => None end.

(** The store after a user named ann has saved one visualization. *)
Definition sample_store : Server :=
  (post_visualizations sample_verify (Some "Bearer ann") (VString "view")
     (VString "water") VUndefined 1700000000000 "2023-11-14T22:13:20.000Z"
     server0).1.

(** * Properties *)

(** ** Arithmetic on finite numbers *)

Ltac js_cases :=
  repeat match goal with
    | |- context [Rlt_dec ?a ?b] => destruct (Rlt_dec a b)
    | |- context [Req_dec_T ?a ?b] => destruct (Req_dec_T a b)
    end.

Lemma jsdiv_finite (a b : R) :
  b ≠ 0%R → (Finite a / Finite b)%js = Finite (a / b).
Proof. intros Hb. simpl. by destruct (Req_dec_T b 0). Qed.

Lemma jsdiv_two (a : R) : (Finite a / Finite 2)%js = Finite (a / 2).
Proof. apply jsdiv_finite. lra. Qed.

Lemma Math_min_finite (a b : R) :
  Math_min (Finite a) (Finite b) = Finite (Rmin a b).
Proof.
  unfold Math_min, jslt, jsgt, Rmin.
  destruct (Rlt_dec b a), (Rle_dec a b); (reflexivity || f_equal; lra).
Qed.

Lemma Math_max_finite (a b : R) :
  Math_max (Finite a) (Finite b) = Finite (Rmax a b).
Proof.
  unfold Math_max, jsgt, Rmax.
  destruct (Rlt_dec a b), (Rle_dec a b); (reflexivity || f_equal; lra).
Qed.

(** ** Scene state *)

Section Scene.
Variable elementVisibility : gmap string bool.
Variable m : Molecule.

Lemma elem_of_visible_atoms (a : SceneAtom) :
  a ∈ visible_atoms elementVisibility m ↔
  ∃ (i : nat) (at_i : Atom),
    mol_atoms m !! i = Some at_i ∧
    elementVisibility !! element at_i ≠ Some false ∧
    a = {| atom := at_i; originalIndex := i; visible := true |}.
Proof.
  unfold visible_atoms. rewrite list_elem_of_filter, elem_of_lookup_imap.
  split.
  - intros [Hvis (i & at_i & -> & Hi)]. exists i, at_i.
    unfold tag_atom in *. simpl in Hvis.
    apply bool_decide_eq_true in Hvis as Hne.
    repeat split; [done | done |]. by rewrite Hvis.
  - intros (i & at_i & Hi & Hne & ->). split; [done |].
    exists i, at_i. split; [| done]. unfold tag_atom. f_equal.
    symmetry. by apply bool_decide_eq_true.
Qed.




Lemma elem_of_visible_bonds (scene : list SceneAtom) (b : Bond) :
  b ∈ visible_bonds scene m ↔
  b ∈ mol_bonds m ∧
  (∃ a, a ∈ scene ∧ Z.of_nat (originalIndex a) = bond_from b) ∧
  (∃ a, a ∈ scene ∧ Z.of_nat (originalIndex a) = bond_to b).
Proof.
  unfold visible_bonds. rewrite list_elem_of_filter.
  rewrite !elem_of_list_to_set, !list_elem_of_fmap.
  split.
  - intros [[(a1 & E1 & H1) (a2 & E2 & H2)] Hb]. eauto 8.
  - intros (Hb & (a1 & H1 & E1) & (a2 & H2 & E2)). eauto 8.
Qed.
End Scene.

Lemma setMolecule_object (m : Molecule) (mask : gmap string bool)
  (v : Simple3DMolecule) :
  let a := visible_atoms mask m in
  setMolecule (Object m) (Object mask) v
  = Normal (render (set_scene a (visible_bonds a m) (clear v))).
Proof. reflexivity. Qed.

Lemma setMolecule_default_mask (m : Molecule) (v : Simple3DMolecule) :
  setMolecule (Object m) Undefined v = setMolecule (Object m) (Object ∅) v.
Proof. reflexivity. Qed.

(** [render] draws and changes nothing else. *)
Lemma render_fields (v : Simple3DMolecule) :
  atoms (render v) = atoms v ∧ bonds (render v) = bonds v ∧
  rotation (render v) = rotation v ∧ zoom (render v) = zoom v ∧
  spinning (render v) = spinning v ∧ isDragging (render v) = isDragging v ∧
  animationFrames (render v) = animationFrames v.
Proof. by repeat split. Qed.

(** C1, as the code has it: with a null or omitted molecule,
    [setMolecule] throws a TypeError at [molecule.atoms], after [clear()]
    has emptied the scene; the object is left with no atom and no bond,
    and [render()] is not reached. *)
Theorem setMolecule_absent_throws_after_clear
  (elementVisibility : Arg (gmap string bool)) (v : Simple3DMolecule) :
  setMolecule Null elementVisibility v = Throw TypeError (clear v) ∧
  setMolecule Undefined elementVisibility v = Throw TypeError (clear v) ∧
  atoms (clear v) = [] ∧ bonds (clear v) = [] ∧
  ctx (clear v) = ctx v ++ [ClearRect (Finite 0) (Finite 0) (width v) (height v)].
Proof. by repeat split. Qed.

(** C1 fails as stated: after water is loaded, [setMolecule(null)] does
    not complete normally, it throws. *)
Lemma setMolecule_null_throws :
  let v := state_of (setMolecule (Object water) Undefined viewer0) in
  ¬ (∃ v', setMolecule Null Undefined v = Normal v') ∧
  ∃ v', setMolecule Null Undefined v = Throw TypeError v'.
Proof.
  intros v. split.
  - intros [v' H]. discriminate H.
  - eexists. reflexivity.
Qed.


(** Water with every element visible has 3 atoms and 2 bonds; with
    hydrogen hidden it has the oxygen atom and no bond. *)
Example water_all_visible :
  let v := state_of (setMolecule (Object water) Undefined viewer0) in
  map originalIndex (atoms v) = [0; 1; 2]%nat ∧ bonds v = mol_bonds water.
Proof. split; reflexivity. Qed.

Example water_hydrogen_hidden :
  let v := state_of (setMolecule (Object water)
                       (Object {[ "H"%string := false ]}) viewer0) in
  map originalIndex (atoms v) = [0]%nat ∧ bonds v = [].
Proof. split; reflexivity. Qed.



(** ** Zoom *)

Lemma zoom_render_set_zoom (k : jsnum) (v : Simple3DMolecule) :
  zoom (render (set_zoom k v)) = k.
Proof. reflexivity. Qed.

Lemma jsmul_finite (a b : R) : (Finite a * Finite b)%js = Finite (a * b).
Proof. reflexivity. Qed.

Lemma on_wheel_zoom (deltaY : jsnum) (v : Simple3DMolecule) (k : R) :
  zoom v = Finite k → zoom_ok (on_wheel deltaY v).
Proof.
  intros Hk. unfold zoom_ok, on_wheel. rewrite zoom_render_set_zoom, Hk.
  destruct (jsgt deltaY (Finite 0));
    rewrite jsmul_finite, Math_min_finite, Math_max_finite;
    eexists; (split; [done |]);
    unfold Rmax, Rmin; repeat destruct (Rle_dec _ _); lra.
Qed.

Lemma zoomIn_zoom (v : Simple3DMolecule) : zoom_ok v → zoom_ok (zoomIn v).
Proof.
  intros (k & Hk & Hr). unfold zoom_ok, zoomIn.
  rewrite zoom_render_set_zoom, Hk, jsmul_finite, Math_min_finite.
  eexists; split; [done |].
  unfold Rmin; destruct (Rle_dec _ _); lra.
Qed.

Lemma zoomOut_zoom (v : Simple3DMolecule) : zoom_ok v → zoom_ok (zoomOut v).
Proof.
  intros (k & Hk & Hr). unfold zoom_ok, zoomOut.
  rewrite zoom_render_set_zoom, Hk, jsmul_finite, Math_max_finite.
  eexists; split; [done |].
  unfold Rmax; destruct (Rle_dec _ _); lra.
Qed.

Lemma spin_zoom (v : Simple3DMolecule) : zoom (spin v) = zoom v.
Proof. unfold spin. by destruct (spinning v). Qed.

Lemma handle_zoom_ok (e : Event) (v : Simple3DMolecule) :
  zoom_ok v → zoom_ok (handle e v).
Proof.
  intros Hv. destruct e; simpl.
  - exact Hv.
  - unfold on_mousemove. by destruct (isDragging v).
  - exact Hv.
  - destruct Hv as (k & Hk & _). by eapply on_wheel_zoom.
  - unfold setView. by destruct (get_property views view) as [[x y] | key |].
  - exists 1%R. split; [done | lra].
  - by apply zoomIn_zoom.
  - by apply zoomOut_zoom.
  - unfold toggleSpin, stopSpin, startSpin, zoom_ok.
    destruct (spinning v); [done |]. by rewrite spin_zoom.
  - unfold animation_frame, zoom_ok.
    destruct (animationFrames v); [done |]. by rewrite spin_zoom.
Qed.

(** C2: from a state whose zoom lies in [0.1, 5], every sequence of wheel
    events (of any delta), [zoomIn], [zoomOut] and the other events of the
    viewer leaves the stored zoom in [0.1, 5]; [render] itself never
    changes it. *)
Theorem zoom_stays_clamped (es : list Event) (v : Simple3DMolecule) :
  zoom_ok v →
  zoom_ok (run es v) ∧ zoom (render (run es v)) = zoom (run es v).
Proof.
  intros Hv. split; [| reflexivity].
  revert v Hv. induction es as [| e es IH]; intros v Hv; simpl.
  - exact Hv.
  - apply IH. by apply handle_zoom_ok.
Qed.

Lemma zoom_stays_clamped_witness :
  zoom_ok viewer0 ∧
  zoom_ok (run [ZoomIn; ZoomIn; Wheel (Finite (-120)); ZoomOut; Wheel NaN;
                Wheel PInf; ZoomIn] viewer0).
Proof.
  assert (H0 : zoom_ok viewer0) by (exists 1%R; split; [reflexivity | lra]).
  split; [exact H0 |].
  exact (proj1 (zoom_stays_clamped _ viewer0 H0)).
Defined.

(** ** Camera transform *)

Section Projection.
Variables (v : Simple3DMolecule) (w h rx ry k : R).
Hypothesis Hcam : has_camera v w h rx ry k.
Variables x y z : R.

Let x1 : R := (x * cos ry - z * sin ry)%R.
Let z1 : R := (x * sin ry + z * cos ry)%R.
Let y1 : R := (y * cos rx - z1 * sin rx)%R.
Let z2 : R := (y * sin rx + z1 * cos rx)%R.

(** On finite numbers everything but the perspective divide is plain
    real arithmetic. *)
Lemma project3D_finite :
  project3D v (Finite x) (Finite y) (Finite z) =
  {| pos_x := (Finite (w / 2) + Finite (x1 * (100 * k))
                                * (Finite 5 / Finite (5 + z2)))%js;
     pos_y := (Finite (h / 2) - Finite (y1 * (100 * k))
                                * (Finite 5 / Finite (5 + z2)))%js;
     pos_z := Finite z2 |}.
Proof using Hcam.
  destruct Hcam as (Hw & Hh & Hrx & Hry & Hk).
  unfold project3D. rewrite Hw, Hh, Hrx, Hry, Hk, !jsdiv_two.
  reflexivity.
Qed.

Lemma project3D_regular :
  (5 + z2)%R ≠ 0%R →
  project3D v (Finite x) (Finite y) (Finite z) =
  {| pos_x := Finite (w / 2 + x1 * 100 * k * (5 / (5 + z2)));
     pos_y := Finite (h / 2 - y1 * 100 * k * (5 / (5 + z2)));
     pos_z := Finite z2 |}.
Proof using Hcam.
  intros Hz. rewrite project3D_finite, jsdiv_finite by done.
  simpl. f_equal; f_equal; unfold Rdiv; ring.
Qed.

Lemma project3D_singular :
  (5 + z2)%R = 0%R →
  let p := project3D v (Finite x) (Finite y) (Finite z) in
  ¬ is_finite (pos_x p) ∧ ¬ is_finite (pos_y p) ∧ pos_z p = Finite (-5).
Proof using Hcam.
  intros Hz p. subst p. rewrite project3D_finite, Hz.
  assert (Hdiv : (Finite 5 / Finite 0)%js = PInf).
  { simpl. destruct (Req_dec_T 0 0) as [_ | Hne]; [| done].
    unfold Rsign. js_cases; (reflexivity || lra). }
  rewrite Hdiv. cbn [pos_x pos_y pos_z jsmul]. split_and!.
  - destruct (Rsign _); simpl; tauto.
  - destruct (Rsign _); simpl; tauto.
  - f_equal. lra.
Qed.
End Projection.

(** C4: on a finite camera and point, [project3D] rotates about the
    vertical axis by [rotation.y], then about the horizontal axis by
    [rotation.x], returns the rotated depth [z2] as [z], and, where
    [5 + z2] is not zero, scales by [5 / (5 + z2)] times [100 * zoom]
    around the centre of the surface; with rotation (0, 0) and zoom 1 the
    origin lands on the centre. *)
Theorem project3D_formula (v : Simple3DMolecule) (w h rx ry k x y z : R) :
  has_camera v w h rx ry k →
  let x1 := (x * cos ry - z * sin ry)%R in
  let z1 := (x * sin ry + z * cos ry)%R in
  let y1 := (y * cos rx - z1 * sin rx)%R in
  let z2 := (y * sin rx + z1 * cos rx)%R in
  let scaleFactor := (5 / (5 + z2))%R in
  pos_z (project3D v (Finite x) (Finite y) (Finite z)) = Finite z2 ∧
  ((5 + z2)%R ≠ 0%R →
     project3D v (Finite x) (Finite y) (Finite z) =
     {| pos_x := Finite (w / 2 + x1 * 100 * k * scaleFactor);
        pos_y := Finite (h / 2 - y1 * 100 * k * scaleFactor);
        pos_z := Finite z2 |}) ∧
  (rx = 0%R → ry = 0%R → k = 1%R →
     pos_x (project3D v (Finite 0) (Finite 0) (Finite 0)) = Finite (w / 2) ∧
     pos_y (project3D v (Finite 0) (Finite 0) (Finite 0)) = Finite (h / 2)).
Proof.
  intros Hcam x1 z1 y1 z2 scaleFactor. split_and!.
  - by rewrite (project3D_finite v w h rx ry k Hcam).
  - apply (project3D_regular v w h rx ry k Hcam).
  - intros -> -> ->.
    rewrite (project3D_regular v w h 0 0 1 Hcam);
      rewrite ?cos_0, ?sin_0; [| lra].
    simpl. split; f_equal; field.
Qed.

Lemma project3D_formula_witness :
  has_camera (setView "front" viewer0) 800 600 0 0 1 ∧
  pos_x (project3D (setView "front" viewer0) (Finite 0) (Finite 0) (Finite 0))
  = Finite (800 / 2) ∧
  pos_y (project3D (setView "front" viewer0) (Finite 0) (Finite 0) (Finite 0))
  = Finite (600 / 2).
Proof.
  assert (Hcam : has_camera (setView "front" viewer0) 800 600 0 0 1)
    by (repeat split; reflexivity).
  split; [exact Hcam |].
  exact (proj2 (proj2 (project3D_formula _ 800 600 0 0 1 0 0 0 Hcam))
           eq_refl eq_refl eq_refl).
Defined.

(** C9: [project3D] has no failing path: on every finite camera and point
    it returns a point whose [z] is the finite depth [z2].  Where [5 + z2]
    is not zero the point is finite.  On the plane [z2 = -5] nothing
    guards the divide: [5 / 0] is [Infinity] and the returned [x] and [y]
    are infinite or NaN, not clamped to any finite value. *)
Theorem project3D_unguarded_singularity
  (v : Simple3DMolecule) (w h rx ry k x y z : R) :
  has_camera v w h rx ry k →
  let z2 := (y * sin rx + (x * sin ry + z * cos ry) * cos rx)%R in
  let p := project3D v (Finite x) (Finite y) (Finite z) in
  pos_z p = Finite z2 ∧
  ((5 + z2)%R ≠ 0%R → is_finite (pos_x p) ∧ is_finite (pos_y p)) ∧
  ((5 + z2)%R = 0%R →
     (Finite 5 / (Finite 5 + Finite z2))%js = PInf ∧
     ¬ is_finite (pos_x p) ∧ ¬ is_finite (pos_y p)).
Proof.
  intros Hcam z2 p. split_and!.
  - subst p. by rewrite (project3D_finite v w h rx ry k Hcam).
  - intros Hz. subst p.
    by rewrite (project3D_regular v w h rx ry k Hcam x y z Hz).
  - intros Hz.
    destruct (project3D_singular v w h rx ry k Hcam x y z Hz) as (Hx & Hy & _).
    split_and!; [| exact Hx | exact Hy].
    cbn [jsadd]. fold z2. rewrite Hz. simpl.
    destruct (Req_dec_T 0 0) as [_ | Hne]; [| done].
    unfold Rsign. js_cases; (reflexivity || lra).
Qed.

Lemma project3D_unguarded_singularity_witness :
  let v := setView "front" viewer0 in
  let p := project3D v (Finite 0) (Finite 0) (Finite (-5)) in
  has_camera v 800 600 0 0 1 ∧
  pos_z p = Finite (0 * sin 0 + (0 * sin 0 + -5 * cos 0) * cos 0) ∧
  ¬ is_finite (pos_x p) ∧ ¬ is_finite (pos_y p).
Proof.
  intros v p.
  assert (Hcam : has_camera v 800 600 0 0 1) by (repeat split; reflexivity).
  assert (Hz : (5 + (0 * sin 0 + (0 * sin 0 + -5 * cos 0) * cos 0))%R = 0%R)
    by (rewrite cos_0, sin_0; lra).
  pose proof (project3D_unguarded_singularity v 800 600 0 0 1 0 0 (-5) Hcam)
    as (Hdepth & _ & Hsing).
  destruct (Hsing Hz) as (_ & Hx & Hy).
  split_and!; [exact Hcam | exact Hdepth | exact Hx | exact Hy].
Defined.

(** At rotation (0, 0) the point (0, 0, -5) projects to NaN and the point
    (1, 0, -5) to +Infinity. *)
Example project3D_singular_values :
  let v := setView "front" viewer0 in
  pos_x (project3D v (Finite 0) (Finite 0) (Finite (-5))) = NaN ∧
  pos_x (project3D v (Finite 1) (Finite 0) (Finite (-5))) = PInf.
Proof.
  intros v.
  assert (Hcam : has_camera v 800 600 0 0 1) by (repeat split; reflexivity).
  assert (Hz : ∀ x : R,
    (5 + (0 * sin 0 + (x * sin 0 + -5 * cos 0) * cos 0))%R = 0%R)
    by (intros x; rewrite cos_0, sin_0; lra).
  split; rewrite (project3D_finite _ 800 600 0 0 1 Hcam);
    cbn [pos_x]; rewrite Hz, cos_0, sin_0; simpl;
    (destruct (Req_dec_T 0 0) as [_ | Hne]; [| done]);
    unfold Rsign; js_cases; try lra; simpl; reflexivity.
Qed.

(** ** Named views *)

Lemma setView_rotation_own (view : string) (x y : jsnum) (v : Simple3DMolecule) :
  get_property views view = Own (x, y) →
  setView view v = render (set_rotation (rotation_literal x y) v).
Proof. intros H. unfold setView. by rewrite H. Qed.

Lemma views_top : get_property views "top" = Own (Finite (PI / 2), Finite 0).
Proof. unfold views, Math_PI. by rewrite jsdiv_two. Qed.

Lemma views_side : get_property views "side" = Own (Finite 0, Finite (PI / 2)).
Proof. unfold views, Math_PI. by rewrite jsdiv_two. Qed.

(** The four names of the table set the rotation, and nothing else of
    the camera. *)
Lemma setView_named (v : Simple3DMolecule) :
  rotation (setView "front" v) = rotation_literal (Finite 0) (Finite 0) ∧
  rotation (setView "top" v) = rotation_literal (Finite (PI / 2)) (Finite 0) ∧
  rotation (setView "side" v) = rotation_literal (Finite 0) (Finite (PI / 2)) ∧
  rotation (setView "iso" v) = rotation_literal (Finite 0.5) (Finite 0.5) ∧
  ∀ view, zoom (setView view v) = zoom v.
Proof.
  split_and!.
  - reflexivity.
  - by rewrite (setView_rotation_own _ _ _ v views_top).
  - by rewrite (setView_rotation_own _ _ _ v views_side).
  - reflexivity.
  - intros view. unfold setView.
    by destruct (get_property views view) as [[x y] | key |].
Qed.

Lemma own_property_None {A : Type} (o : list (string * A)) (key : string) :
  key ∉ map fst o → own_property o key = None.
Proof.
  induction o as [| [k a] o IH]; [done |]. simpl. intros Hkey.
  destruct (String.eqb_spec k key) as [-> | Hne].
  - exfalso. apply Hkey. by left.
  - apply IH. intros Hin. apply Hkey. by right.
Qed.

(** A name that is neither in the table nor a member of
    [Object.prototype] changes nothing and draws nothing. *)
Lemma setView_unknown (view : string) (v : Simple3DMolecule) :
  view ∉ ["front"; "top"; "side"; "iso"]%string →
  view ∉ Object_prototype_keys →
  setView view v = v.
Proof.
  intros Hown Hproto. unfold setView, get_property.
  assert (Hnone : own_property views view = None).
  { by apply own_property_None. }
  rewrite Hnone. by rewrite bool_decide_eq_false_2.
Qed.

(** Every name that [Object.prototype] defines passes the guard of
    [setView] and replaces the rotation by the inherited member. *)
Lemma setView_inherited (key : string) (v : Simple3DMolecule) :
  key ∈ Object_prototype_keys →
  rotation (setView key v)
  = {| rot_x := JUndefined; rot_y := JUndefined; rot_member := Some key |}.
Proof.
  intros H. rewrite list_elem_of_In in H. simpl in H.
  repeat (destruct H as [<- | H]; [reflexivity |]). contradiction.
Qed.

(** C7, the part the code misses: [views[view]] also finds what the
    object literal inherits, so [setView('constructor')] takes the guard
    and stores a function as the rotation.  Its [x] and [y] are undefined
    and every later projection is NaN. *)
Theorem setView_inherited_name_changes_camera :
  let v := setView "constructor" viewer0 in
  ("constructor"%string ∉ ["front"; "top"; "side"; "iso"]%string) ∧
  rotation v = {| rot_x := JUndefined; rot_y := JUndefined;
                  rot_member := Some "constructor"%string |} ∧
  rotation v ≠ rotation viewer0 ∧
  v ≠ viewer0 ∧
  project3D v (Finite 0) (Finite 0) (Finite 0)
  = {| pos_x := NaN; pos_y := NaN; pos_z := NaN |}.
Proof.
  intros v. split_and!.
  - rewrite list_elem_of_In. simpl.
    intros [H | [H | [H | [H | []]]]]; discriminate H.
  - reflexivity.
  - discriminate.
  - intros Heq. apply (f_equal rotation) in Heq. discriminate Heq.
  - unfold project3D.
    change (width v) with (Finite 800). change (height v) with (Finite 600).
    rewrite !jsdiv_two. reflexivity.
Qed.

(** ** Drag and spin *)

(** C5 fails as stated: a pointer-down on a spinning viewer leaves it
    spinning, and dragging as well. *)
Lemma mousedown_while_spinning :
  let v := startSpin viewer0 in
  let v' := on_mousedown (Finite 10) (Finite 10) v in
  spinning v = true ∧ spinning v' = true ∧ isDragging v' = true ∧
  ¬ (spinning v' = false).
Proof. by split_and!. Qed.

(** C5, as the code has it: a pointer-down on a spinning viewer sets
    [isDragging] and records the pointer position, and changes neither
    the spinning flag nor the waiting callbacks nor the rotation; after
    it a pointer-move rotates by the drag delta and a spin tick still
    rotates by 0.02. *)
Theorem mousedown_keeps_spinning (cx cy : jsnum) (v : Simple3DMolecule) :
  spinning v = true →
  let v' := on_mousedown cx cy v in
  spinning v' = true ∧ isDragging v' = true ∧
  lastX v' = cx ∧ lastY v' = cy ∧
  rotation v' = rotation v ∧ animationFrames v' = animationFrames v ∧
  (∀ mx my,
     rotation (on_mousemove mx my v')
     = add_rot_x ((my - cy) * Finite 0.01)%js
         (add_rot_y ((mx - cx) * Finite 0.01)%js (rotation v))) ∧
  rotation (spin v') = add_rot_y (Finite 0.02) (rotation v).
Proof.
  intros Hspin v'. split_and!; try done.
  unfold spin. subst v'. simpl. by rewrite Hspin.
Qed.

Lemma mousedown_keeps_spinning_witness :
  spinning (startSpin viewer0) = true ∧
  spinning (on_mousedown (Finite 10) (Finite 10) (startSpin viewer0)) = true ∧
  isDragging (on_mousedown (Finite 10) (Finite 10) (startSpin viewer0)) = true.
Proof.
  pose proof (mousedown_keeps_spinning (Finite 10) (Finite 10)
                (startSpin viewer0) eq_refl) as (H1 & H2 & _).
  split_and!; [reflexivity | exact H1 | exact H2].
Defined.





(** ** Sorting by a finite key *)

Section Sort.
Context {A : Type}.
Variable key : A → jsnum.

Let cmp (a b : A) : jsnum := (key a - key b)%js.







End Sort.

(** ** Render pipeline *)







(** The scene that [setMolecule] builds is linked. *)
Lemma setMolecule_scene_linked (m : Molecule) (mask : gmap string bool)
  (v v' : Simple3DMolecule) :
  setMolecule (Object m) (Object mask) v = Normal v' → scene_linked v'.
Proof.
  rewrite setMolecule_object. intros [= <-] b Hb.
  by apply elem_of_visible_bonds in Hb as (_ & ? & ?).
Qed.

Lemma spin_scene (v : Simple3DMolecule) :
  atoms (spin v) = atoms v ∧ bonds (spin v) = bonds v.
Proof. unfold spin. by destruct (spinning v). Qed.

(** No event changes the scene. *)
Lemma handle_scene (e : Event) (v : Simple3DMolecule) :
  atoms (handle e v) = atoms v ∧ bonds (handle e v) = bonds v.
Proof.
  destruct e; simpl; try done.
  - unfold on_mousemove. by destruct (isDragging v).
  - unfold setView. by destruct (get_property views view) as [[x y] | key |].
  - unfold toggleSpin, startSpin. destruct (spinning v); [done |].
    apply (spin_scene (set_spinning true v)).
  - unfold animation_frame. destruct (animationFrames v) as [| n]; [done |].
    apply (spin_scene (set_frames n v)).
Qed.

(** Every state of the class has a linked scene. *)
Lemma reachable_scene_linked (v : Simple3DMolecule) :
  reachable v → scene_linked v.
Proof.
  induction 1 as [w h | e v _ IH | v _ _ | molecule mask v _ _].
  - intros b Hb. by apply elem_of_nil in Hb.
  - intros b. destruct (handle_scene e v) as [-> ->]. apply IH.
  - intros b Hb. by apply elem_of_nil in Hb.
  - destruct molecule as [| | m]; try (intros b Hb; by apply elem_of_nil in Hb).
    destruct mask as [| | mask].
    + by apply (setMolecule_scene_linked m ∅ v).
    + destruct (mol_atoms m) eqn:Hm.
      * unfold setMolecule. rewrite Hm.
        intros b Hb. by apply elem_of_visible_bonds in Hb as (_ & ? & ?).
      * unfold setMolecule. rewrite Hm. intros b Hb. by apply elem_of_nil in Hb.
    + by apply (setMolecule_scene_linked m mask v).
Qed.




(** A run of the sort on keyed letters: ascending keys, and the two
    entries of key 1 keep their order. *)
Example Array_sort_keyed_letters :
  Array_sort (λ a b : Z * string, Finite (IZR a.1) - Finite (IZR b.1))%js
             [ (3, "a"); (1, "b"); (2, "c"); (1, "d") ]%Z%string
  = [ (1, "b"); (1, "d"); (2, "c"); (3, "a") ]%Z%string.
Proof.
  unfold Array_sort. repeat (simpl; js_cases; try lra). all: reflexivity.
Qed.

(** ** Sample runs *)

(** Nine [zoomIn] from the default zoom reach the upper limit, and a
    tenth stays there. *)
Example zoomIn_saturates :
  zoom (run (replicate 9 ZoomIn) viewer0) = Finite 5 ∧
  zoom (run (replicate 10 ZoomIn) viewer0) = Finite 5.
Proof.
  assert (Hstep : ∀ (k : R) v, zoom v = Finite k →
            zoom (zoomIn v) = Finite (Rmin (k * 1.2) 5)).
  { intros k v Hk. unfold zoomIn.
    by rewrite zoom_render_set_zoom, Hk, jsmul_finite, Math_min_finite. }
  pose proof (eq_refl : zoom viewer0 = Finite 1) as H.
  do 8 (apply Hstep in H; rewrite Rmin_left in H by lra).
  apply Hstep in H; rewrite Rmin_right in H by lra.
  split; [exact H |].
  apply Hstep in H; rewrite Rmin_right in H by lra.
  exact H.
Qed.

(** A drag of 100 pixels to the right adds 1.0 to [rotation.y] and
    leaves [rotation.x] alone. *)
Example drag_right :
  let v := on_mousemove (Finite 100) (Finite 0)
             (on_mousedown (Finite 0) (Finite 0) viewer0) in
  ∃ rx ry : R,
    rotation v = rotation_literal (Finite rx) (Finite ry) ∧
    ry = (0.5 + 1.0)%R ∧ rx = 0.5%R.
Proof.
  intros v. eexists _, _. split; [reflexivity |]. split; lra.
Qed.

(** An unknown view name changes nothing. *)
Example setView_bogus : setView "bogus" viewer0 = viewer0.
Proof.
  apply setView_unknown; rewrite list_elem_of_In; simpl;
    intuition discriminate.
Qed.

(** * Further properties of the viewer *)

(** ** Dragging *)

Lemma on_mousemove_dragging (v : Simple3DMolecule) (rx ry lx ly x y : R) :
  isDragging v = true →
  lastX v = Finite lx → lastY v = Finite ly →
  rot_x (rotation v) = JNumber (Finite rx) →
  rot_y (rotation v) = JNumber (Finite ry) →
  let v' := on_mousemove (Finite x) (Finite y) v in
  isDragging v' = true ∧ lastX v' = Finite x ∧ lastY v' = Finite y ∧
  rot_x (rotation v') = JNumber (Finite (rx + (y + - ly) * 0.01)) ∧
  rot_y (rotation v') = JNumber (Finite (ry + (x + - lx) * 0.01)).
Proof.
  intros Hd Hlx Hly Hrx Hry. unfold on_mousemove. rewrite Hd, Hlx, Hly.
  cbn. rewrite Hrx, Hry. cbn. split_and!; reflexivity.
Qed.

Lemma last_cons_default {A : Type} (x d : A) (l : list A) :
  List.last (x :: l) d = List.last l x.
Proof.
  revert x d. induction l as [| y l IH]; intros x d; [done |].
  change (List.last (y :: l) d = List.last (y :: l) x).
  by rewrite (IH y d), (IH y x).
Qed.

Lemma drag_moves_from (pts : list (R * R)) :
  ∀ (v : Simple3DMolecule) (rx ry lx ly : R),
    isDragging v = true →
    lastX v = Finite lx → lastY v = Finite ly →
    rot_x (rotation v) = JNumber (Finite rx) →
    rot_y (rotation v) = JNumber (Finite ry) →
    ∃ rx' ry' : R,
      rot_x (rotation (run (mouse_moves (map finite_point pts)) v))
      = JNumber (Finite rx') ∧
      rot_y (rotation (run (mouse_moves (map finite_point pts)) v))
      = JNumber (Finite ry') ∧
      isDragging (run (mouse_moves (map finite_point pts)) v) = true ∧
      rx' = (rx + ((List.last pts (lx, ly)).2 - ly) * 0.01)%R ∧
      ry' = (ry + ((List.last pts (lx, ly)).1 - lx) * 0.01)%R.
Proof.
  induction pts as [| [x y] pts IH]; intros v rx ry lx ly Hd Hlx Hly Hrx Hry.
  - exists rx, ry. simpl. split_and!; [done | done | done | lra | lra].
  - destruct (on_mousemove_dragging v rx ry lx ly x y Hd Hlx Hly Hrx Hry)
      as (Hd' & Hlx' & Hly' & Hrx' & Hry').
    destruct (IH _ _ _ _ _ Hd' Hlx' Hly' Hrx' Hry')
      as (rx' & ry' & Hx & Hy & Hdrag & -> & ->).
    rewrite last_cons_default.
    eexists _, _. split_and!; [exact Hx | exact Hy | exact Hdrag | |];
      simpl; lra.
Qed.

(** X1: a drag that starts at (x0, y0) and moves through any finite
    points turns the camera by 0.01 per pixel of the distance between the
    start and the last point: the path in between does not matter. *)
Theorem drag_rotation_depends_on_endpoints
  (v : Simple3DMolecule) (rx ry x0 y0 : R) (pts : list (R * R)) :
  rot_x (rotation v) = JNumber (Finite rx) →
  rot_y (rotation v) = JNumber (Finite ry) →
  let v' := run (MouseDown (Finite x0) (Finite y0)
                 :: mouse_moves (map finite_point pts)) v in
  let xn := (List.last pts (x0, y0)).1 in
  let yn := (List.last pts (x0, y0)).2 in
  ∃ rx' ry' : R,
    rot_x (rotation v') = JNumber (Finite rx') ∧
    rot_y (rotation v') = JNumber (Finite ry') ∧
    rx' = (rx + (yn - y0) * 0.01)%R ∧
    ry' = (ry + (xn - x0) * 0.01)%R.
Proof.
  intros Hrx Hry v' xn yn.
  destruct (drag_moves_from pts (on_mousedown (Finite x0) (Finite y0) v)
              rx ry x0 y0 eq_refl eq_refl eq_refl Hrx Hry)
    as (rx' & ry' & Hx & Hy & _ & Ex & Ey).
  by exists rx', ry'.
Qed.

Lemma drag_rotation_depends_on_endpoints_witness :
  ∃ rx' ry' : R,
    rot_x (rotation (run [MouseDown (Finite 0) (Finite 0);
                          MouseMove (Finite 30) (Finite 40);
                          MouseMove (Finite 100) (Finite 0)] viewer0))
    = JNumber (Finite rx') ∧
    rot_y (rotation (run [MouseDown (Finite 0) (Finite 0);
                          MouseMove (Finite 30) (Finite 40);
                          MouseMove (Finite 100) (Finite 0)] viewer0))
    = JNumber (Finite ry') ∧
    rx' = (0.5 + (0 - 0) * 0.01)%R ∧ ry' = (0.5 + (100 - 0) * 0.01)%R.
Proof.
  exact (drag_rotation_depends_on_endpoints viewer0 0.5 0.5 0 0
           [(30, 40); (100, 0)]%R eq_refl eq_refl).
Defined.

(** X2: while no button is held (before any press, or after a release),
    pointer moves change nothing: no rotation and no drawing. *)
Theorem moves_without_press_do_nothing
  (v : Simple3DMolecule) (pts : list (jsnum * jsnum)) :
  run (mouse_moves pts) (on_mouseup v) = on_mouseup v ∧
  (isDragging v = false → run (mouse_moves pts) v = v).
Proof.
  assert (H : ∀ u, isDragging u = false → run (mouse_moves pts) u = u).
  { induction pts as [| [x y] pts IH]; intros u Hu; [done |].
    simpl. unfold on_mousemove. rewrite Hu. by apply IH. }
  split; [by apply H | apply H].
Qed.

Lemma moves_without_press_do_nothing_witness :
  run (mouse_moves [(Finite 5, Finite 5); (Finite 90, Finite 7)]) viewer0
  = viewer0.
Proof.
  exact (proj2 (moves_without_press_do_nothing viewer0
                  [(Finite 5, Finite 5); (Finite 90, Finite 7)]) eq_refl).
Defined.

(** ** Spin loops *)

Lemma animation_frame_spinning (v : Simple3DMolecule) (ry : R) (n : nat) :
  spinning v = true → animationFrames v = S n →
  rot_y (rotation v) = JNumber (Finite ry) →
  spinning (animation_frame v) = true ∧
  animationFrames (animation_frame v) = S n ∧
  rot_x (rotation (animation_frame v)) = rot_x (rotation v) ∧
  rot_y (rotation (animation_frame v)) = JNumber (Finite (ry + 0.02)).
Proof.
  intros Hs Hn Hry. unfold animation_frame. rewrite Hn.
  unfold spin. cbn. rewrite Hs. cbn. rewrite Hry. by split_and!.
Qed.

Lemma animation_frames_spinning (k : nat) :
  ∀ (v : Simple3DMolecule) (ry : R) (n : nat),
    spinning v = true → animationFrames v = S n →
    rot_y (rotation v) = JNumber (Finite ry) →
    spinning (Nat.iter k animation_frame v) = true ∧
    animationFrames (Nat.iter k animation_frame v) = S n ∧
    rot_x (rotation (Nat.iter k animation_frame v)) = rot_x (rotation v) ∧
    rot_y (rotation (Nat.iter k animation_frame v))
    = JNumber (Finite (ry + INR k * 0.02)).
Proof.
  induction k as [| k IH]; intros v ry n Hs Hn Hry.
  - simpl. split_and!; try done. rewrite Hry. do 2 f_equal. lra.
  - destruct (IH v ry n Hs Hn Hry) as (Hs' & Hn' & Hx' & Hy').
    destruct (animation_frame_spinning _ _ _ Hs' Hn' Hy') as (Hs2 & Hn2 & Hx2 & Hy2).
    rewrite !Nat.iter_succ. split_and!; try done.
    + by rewrite Hx2.
    + rewrite Hy2. do 2 f_equal. rewrite S_INR. lra.
Qed.

(** X3: every waiting [spin] callback is a loop of its own.  On a
    spinning viewer with [n + 1] callbacks waiting, one display refresh
    turns [rotation.y] by [0.02] for each of them and leaves as many
    waiting; and stopping and starting again before the waiting callback
    has fired (two [toggleSpin]) adds one more loop, so the viewer then
    spins faster. *)
Theorem spin_loops_accumulate (v : Simple3DMolecule) (ry : R) (n : nat) :
  spinning v = true → animationFrames v = S n →
  rot_y (rotation v) = JNumber (Finite ry) →
  (spinning (display_refresh v) = true ∧
   animationFrames (display_refresh v) = S n ∧
   rot_y (rotation (display_refresh v))
   = JNumber (Finite (ry + INR (S n) * 0.02))) ∧
  (spinning (toggleSpin (toggleSpin v)) = true ∧
   animationFrames (toggleSpin (toggleSpin v)) = S (S n) ∧
   rot_y (rotation (display_refresh (toggleSpin (toggleSpin v))))
   = JNumber (Finite (ry + 0.02 + INR (S (S n)) * 0.02))).
Proof.
  intros Hs Hn Hry. split.
  - unfold display_refresh. rewrite Hn.
    destruct (animation_frames_spinning (S n) v ry n Hs Hn Hry)
      as (H1 & H2 & _ & H4).
    by split_and!.
  - assert (Hv : toggleSpin v = stopSpin v) by (unfold toggleSpin; by rewrite Hs).
    assert (Hv2 : toggleSpin (toggleSpin v) = startSpin (stopSpin v)).
    { by rewrite Hv. }
    rewrite Hv2.
    assert (Hs2 : spinning (startSpin (stopSpin v)) = true) by reflexivity.
    assert (Hn2 : animationFrames (startSpin (stopSpin v)) = S (S n)).
    { unfold startSpin, spin. cbn. by rewrite Hn. }
    assert (Hry2 : rot_y (rotation (startSpin (stopSpin v)))
                   = JNumber (Finite (ry + 0.02))).
    { unfold startSpin, spin. cbn. by rewrite Hry. }
    split_and!; [done | done |].
    unfold display_refresh. rewrite Hn2.
    by destruct (animation_frames_spinning (S (S n)) _ _ _ Hs2 Hn2 Hry2)
      as (_ & _ & _ & ->).
Qed.

Lemma spin_loops_accumulate_witness :
  animationFrames (startSpin viewer0) = 1%nat ∧
  animationFrames (toggleSpin (toggleSpin (startSpin viewer0))) = 2%nat.
Proof.
  destruct (spin_loops_accumulate (startSpin viewer0) (0.5 + 0.02) 0
              eq_refl eq_refl eq_refl) as (_ & _ & H & _).
  split; [reflexivity | exact H].
Defined.

(** ** Zoom steps *)





(** ** Redrawing *)

(** X5: with no atom in the scene, [render] clears the surface and
    paints the background and draws nothing else, whatever [this.bonds]
    holds. *)
Theorem render_empty_scene (v : Simple3DMolecule) :
  atoms v = [] →
  render_ops v = [ ClearRect (Finite 0) (Finite 0) (width v) (height v);
                   FillBackground (width v) (height v) ].
Proof.
  intros Ha. unfold render_ops, projectedAtoms. rewrite Ha. simpl.
  do 2 f_equal. induction (bonds v) as [| b bs IH]; [done |].
  simpl. by rewrite IH.
Qed.

Lemma render_empty_scene_witness :
  render_ops (clear (state_of (setMolecule (Object water) Undefined viewer0)))
  = [ ClearRect (Finite 0) (Finite 0) (Finite 800) (Finite 600);
      FillBackground (Finite 800) (Finite 600) ].
Proof.
  exact (render_empty_scene
           (clear (state_of (setMolecule (Object water) Undefined viewer0)))
           eq_refl).
Defined.

(** ** Scene filter *)

Lemma visible_atoms_filter (mask : gmap string bool) (m : Molecule) :
  visible_atoms mask m
  = filter (λ sa, shown mask (element (atom sa)))
           (imap scene_atom_at (mol_atoms m)).
Proof.
  unfold visible_atoms.
  change (tag_atom mask) with (λ i, tag_atom mask (0 + i)).
  change scene_atom_at with (λ i, scene_atom_at (0 + i)).
  generalize 0%nat. induction (mol_atoms m) as [| a l IH]; intros k; [done |].
  rewrite !imap_cons, !filter_cons.
  rewrite (imap_ext _ (λ i, tag_atom mask (S k + i))), IH by (intros; simpl; f_equal; lia).
  rewrite (imap_ext ((λ i, scene_atom_at (k + i)) ∘ S)
                    (λ i, scene_atom_at (S k + i)))
    by (intros; simpl; f_equal; lia).
  unfold tag_atom at 1 2. unfold shown at 1. simpl.
  destruct (decide (mask !! element a ≠ Some false)) as [Hs | Hs].
  - rewrite (bool_decide_eq_true_2 _ Hs).
    rewrite decide_True by done. rewrite decide_True by done.
    f_equal. unfold tag_atom, scene_atom_at.
    by rewrite (bool_decide_eq_true_2 _ Hs).
  - rewrite (bool_decide_eq_false_2 _ Hs).
    rewrite decide_False by done. by rewrite decide_False by done.
Qed.

Lemma filter_all {A : Type} (P : A → Prop) `{!∀ x, Decision (P x)} (l : list A) :
  Forall P l → filter P l = l.
Proof.
  induction 1 as [| x l Hx _ IH]; [done |].
  by rewrite filter_cons_True, IH.
Qed.

Lemma filter_sublist_impl {A : Type} (P Q : A → Prop)
  `{!∀ x, Decision (P x), !∀ x, Decision (Q x)} (l : list A) :
  (∀ x, x ∈ l → P x → Q x) → sublist (filter P l) (filter Q l).
Proof.
  intros Himp. induction l as [| x l IH]; [done |].
  assert (Hl : ∀ y, y ∈ l → P y → Q y) by (intros y Hy; apply Himp; by right).
  rewrite !filter_cons. destruct (decide (P x)) as [HP | HP].
  - rewrite decide_True by (apply Himp; [by left | done]).
    by apply sublist_skip, IH.
  - destruct (decide (Q x)); [apply sublist_cons |]; by apply IH.
Qed.

(** X6: hiding more elements only removes from the scene: when every
    element that [mask1] hides is hidden by [mask2] too, the atoms and the
    bonds under [mask2] are sublists, in the same order, of those under
    [mask1]. *)
Theorem hiding_more_shows_less (m : Molecule) (mask1 mask2 : gmap string bool)
  (v1 v2 : Simple3DMolecule) :
  (∀ el, mask1 !! el = Some false → mask2 !! el = Some false) →
  let s1 := state_of (setMolecule (Object m) (Object mask1) v1) in
  let s2 := state_of (setMolecule (Object m) (Object mask2) v2) in
  sublist (atoms s2) (atoms s1) ∧ sublist (bonds s2) (bonds s1).
Proof.
  intros Hmask s1 s2.
  assert (Ha : sublist (visible_atoms mask2 m) (visible_atoms mask1 m)).
  { rewrite !visible_atoms_filter. apply filter_sublist_impl.
    intros sa _ H2 H1. apply H2. by apply Hmask. }
  split; [exact Ha |].
  change (sublist (visible_bonds (visible_atoms mask2 m) m)
                  (visible_bonds (visible_atoms mask1 m) m)).
  unfold visible_bonds. apply filter_sublist_impl.
  intros b _. rewrite !elem_of_list_to_set, !list_elem_of_fmap.
  intros [(a1 & E1 & H1) (a2 & E2 & H2)].
  split; [exists a1 | exists a2]; (split; [done |]);
    eapply elem_of_sublist; eauto.
Qed.

Lemma hiding_more_shows_less_witness :
  let s1 := state_of (setMolecule (Object water) (Object ∅) viewer0) in
  let s2 := state_of (setMolecule (Object water)
                        (Object {[ "H"%string := false ]}) viewer0) in
  sublist (atoms s2) (atoms s1) ∧ sublist (bonds s2) (bonds s1).
Proof.
  apply (hiding_more_shows_less water ∅ {[ "H"%string := false ]}).
  intros el H. by rewrite lookup_empty in H.
Defined.

(** X7: when the mask maps an element to [false], no atom of that element
    is in the scene and no bond of the scene has an end at an atom of that
    element. *)
Theorem hidden_element_leaves_no_bond (m : Molecule) (mask : gmap string bool)
  (v : Simple3DMolecule) (el : string) :
  mask !! el = Some false →
  let s := state_of (setMolecule (Object m) (Object mask) v) in
  (∀ a, a ∈ atoms s → element (atom a) ≠ el) ∧
  (∀ b (i : nat) (a : Atom),
     b ∈ bonds s → mol_atoms m !! i = Some a → element a = el →
     bond_from b ≠ Z.of_nat i ∧ bond_to b ≠ Z.of_nat i).
Proof.
  intros Hel s.
  assert (Hatoms : ∀ sa, sa ∈ visible_atoms mask m →
            ∀ a, mol_atoms m !! originalIndex sa = Some a → element a ≠ el).
  { intros sa (j & at_j & Hj & Hshown & ->)%elem_of_visible_atoms a Ha.
    simpl in Ha. rewrite Hj in Ha. injection Ha as <-.
    intros Heq. apply Hshown. by rewrite Heq. }
  split.
  - intros a Ha.
    pose proof Ha as (j & at_j & Hj & _ & ->)%elem_of_visible_atoms.
    by apply (Hatoms _ Ha).
  - intros b i a Hb Hi Hela.
    apply elem_of_visible_bonds in Hb as (_ & (a1 & H1 & E1) & (a2 & H2 & E2)).
    split; intros Heq.
    + rewrite Heq in E1. apply Nat2Z.inj in E1.
      apply (Hatoms a1 H1 a); [by rewrite E1 | done].
    + rewrite Heq in E2. apply Nat2Z.inj in E2.
      apply (Hatoms a2 H2 a); [by rewrite E2 | done].
Qed.

Lemma hidden_element_leaves_no_bond_witness :
  let s := state_of (setMolecule (Object water)
                       (Object {[ "H"%string := false ]}) viewer0) in
  Forall (λ a, element (atom a) ≠ "H"%string) (atoms s).
Proof.
  intros s. apply Forall_forall.
  exact (proj1 (hidden_element_leaves_no_bond water {[ "H"%string := false ]}
                  viewer0 "H" eq_refl)).
Defined.

(** X8: when the mask hides none of the molecule's elements, the scene is
    the whole atom array, each atom at its own position, and the bonds
    kept are exactly those whose two ends are positions of that array;
    so a molecule whose bonds are all in range is shown in full. *)
Theorem nothing_hidden_shows_whole_molecule (m : Molecule)
  (mask : gmap string bool) (v : Simple3DMolecule) :
  Forall (λ a, shown mask (element a)) (mol_atoms m) →
  let s := state_of (setMolecule (Object m) (Object mask) v) in
  atoms s = imap scene_atom_at (mol_atoms m) ∧
  bonds s = filter (bond_in_range m) (mol_bonds m) ∧
  (Forall (bond_in_range m) (mol_bonds m) → bonds s = mol_bonds m).
Proof.
  intros Hshown s.
  assert (Ha : visible_atoms mask m = imap scene_atom_at (mol_atoms m)).
  { rewrite visible_atoms_filter. apply filter_all.
    apply Forall_forall. intros sa (i & a & -> & Hi)%elem_of_lookup_imap.
    simpl. rewrite Forall_lookup in Hshown. by apply (Hshown i). }
  assert (Hb : bonds s = filter (bond_in_range m) (mol_bonds m)).
  { change (visible_bonds (visible_atoms mask m) m
            = filter (bond_in_range m) (mol_bonds m)).
    rewrite Ha. unfold visible_bonds. apply list_filter_iff. intros b.
    assert (Hidx : ∀ z : Z,
      z ∈ (list_to_set (map (λ a, Z.of_nat (originalIndex a))
                            (imap scene_atom_at (mol_atoms m))) : gset Z)
      ↔ (0 <= z < Z.of_nat (length (mol_atoms m)))%Z).
    { intros z. rewrite elem_of_list_to_set, list_elem_of_fmap. split.
      - intros (sa & -> & (i & a & -> & Hi)%elem_of_lookup_imap). simpl.
        apply lookup_lt_Some in Hi. lia.
      - intros Hz. destruct (lookup_lt_is_Some_2 (mol_atoms m) (Z.to_nat z))
          as [a Hi]; [lia |].
        exists (scene_atom_at (Z.to_nat z) a). split; [simpl; lia |].
        by apply elem_of_lookup_imap_2. }
    unfold bond_in_range. by rewrite !Hidx. }
  split_and!; [exact Ha | exact Hb |].
  intros Hall. rewrite Hb. by apply filter_all.
Qed.

Lemma nothing_hidden_shows_whole_molecule_witness :
  let s := state_of (setMolecule (Object water) (Object ∅) viewer0) in
  length (atoms s) = 3%nat ∧ bonds s = mol_bonds water.
Proof.
  assert (Hshown : Forall (λ a, shown ∅ (element a)) (mol_atoms water)).
  { repeat constructor; unfold shown; by rewrite lookup_empty. }
  destruct (nothing_hidden_shows_whole_molecule water ∅ viewer0 Hshown)
    as (Ha & _ & Hb).
  split.
  - by rewrite Ha.
  - apply Hb. repeat constructor; simpl; lia.
Defined.

(** ** Colour lightening *)

Lemma of_pos_step (q : positive) (d : Z) (rest : string) :
  (0 <= d < 16)%Z →
  HexString.Raw.of_pos (Z.to_pos (16 * Z.pos q + d)) rest
  = HexString.Raw.of_pos q (String (hexdigit d) rest).
Proof.
  intros Hd.
  assert (Hcases : d ∈ [0; 1; 2; 3; 4; 5; 6; 7; 8; 9; 10; 11; 12; 13; 14; 15]%Z).
  { rewrite list_elem_of_In. simpl. lia. }
  rewrite list_elem_of_In in Hcases. simpl in Hcases.
  repeat (destruct Hcases as [<- | Hcases]; [reflexivity |]).
  contradiction.
Qed.

Lemma toString16_step (z d : Z) (rest : string) :
  (0 < z)%Z → (0 <= d < 16)%Z →
  HexString.Raw.of_pos (Z.to_pos (16 * z + d)) rest
  = HexString.Raw.of_pos (Z.to_pos z) (String (hexdigit d) rest).
Proof.
  intros Hz Hd. destruct z as [| q | q]; try lia. by apply of_pos_step.
Qed.

(** The packed value [0x1000000 + r * 0x10000 + g * 0x100 + b] is written
    as a [1] followed by two digits per channel. *)
Lemma toString16_packed (r g b : Z) :
  (0 <= r <= 255)%Z → (0 <= g <= 255)%Z → (0 <= b <= 255)%Z →
  toString16 (16777216 + r * 65536 + g * 256 + b)
  = String "1" (hex2 r ++ hex2 g ++ hex2 b).
Proof.
  intros Hr Hg Hb.
  pose proof (Z.div_mod r 16 ltac:(lia)) as Er.
  pose proof (Z.div_mod g 16 ltac:(lia)) as Eg.
  pose proof (Z.div_mod b 16 ltac:(lia)) as Eb.
  pose proof (Z.mod_pos_bound r 16 ltac:(lia)).
  pose proof (Z.mod_pos_bound g 16 ltac:(lia)).
  pose proof (Z.mod_pos_bound b 16 ltac:(lia)).
  assert (0 <= r / 16 < 16)%Z by (split; [apply Z.div_pos | apply Z.div_lt_upper_bound]; lia).
  assert (0 <= g / 16 < 16)%Z by (split; [apply Z.div_pos | apply Z.div_lt_upper_bound]; lia).
  assert (0 <= b / 16 < 16)%Z by (split; [apply Z.div_pos | apply Z.div_lt_upper_bound]; lia).
  set (r1 := (r / 16)%Z) in *. set (r0 := (r mod 16)%Z) in *.
  set (g1 := (g / 16)%Z) in *. set (g0 := (g mod 16)%Z) in *.
  set (b1 := (b / 16)%Z) in *. set (b0 := (b mod 16)%Z) in *.
  replace (16777216 + r * 65536 + g * 256 + b)%Z
    with (16 * (16 * (16 * (16 * (16 * (16 * 1 + r1) + r0) + g1) + g0) + b1) + b0)%Z
    by lia.
  unfold toString16.
  destruct (16 * (16 * (16 * (16 * (16 * (16 * 1 + r1) + r0) + g1) + g0) + b1) + b0)%Z
    as [| p | p] eqn:Ep; try lia.
  change p with (Z.to_pos (Z.pos p)). rewrite <- Ep.
  rewrite !toString16_step by lia.
  reflexivity.
Qed.

Lemma hexdigit_parse (d : Z) (s : string) (acc : option Z) :
  (0 <= d < 16)%Z →
  hex_prefix (String (hexdigit d) s) acc
  = hex_prefix s (Some (16 * default 0%Z acc + d)%Z).
Proof.
  intros Hd.
  assert (Hcases : d ∈ [0; 1; 2; 3; 4; 5; 6; 7; 8; 9; 10; 11; 12; 13; 14; 15]%Z).
  { rewrite list_elem_of_In. simpl. lia. }
  rewrite list_elem_of_In in Hcases. simpl in Hcases.
  repeat (destruct Hcases as [<- | Hcases]; [reflexivity |]).
  contradiction.
Qed.

Lemma parseInt16_two_digits (d1 d2 : Z) (s : string) :
  (0 <= d1 < 16)%Z → (0 <= d2 < 16)%Z →
  parseInt16 (String (hexdigit d1) (String (hexdigit d2) s))
  = hex_prefix s (Some (16 * d1 + d2)%Z).
Proof.
  intros H1 H2.
  assert (Hc : ∀ d, (0 <= d < 16)%Z →
            d ∈ [0; 1; 2; 3; 4; 5; 6; 7; 8; 9; 10; 11; 12; 13; 14; 15]%Z).
  { intros d Hd. rewrite list_elem_of_In. simpl. lia. }
  apply Hc in H1, H2. rewrite list_elem_of_In in H1, H2. simpl in H1, H2.
  repeat (destruct H1 as [<- | H1];
    [repeat (destruct H2 as [<- | H2]; [reflexivity |]); contradiction |]).
  contradiction.
Qed.

Lemma parseInt16_css_rgb (r g b : Z) :
  (0 <= r <= 255)%Z → (0 <= g <= 255)%Z → (0 <= b <= 255)%Z →
  parseInt16 (replace_hash (css_rgb r g b)) = Some (r * 65536 + g * 256 + b)%Z.
Proof.
  intros Hr Hg Hb.
  pose proof (Z.div_mod r 16 ltac:(lia)) as Er.
  pose proof (Z.div_mod g 16 ltac:(lia)) as Eg.
  pose proof (Z.div_mod b 16 ltac:(lia)) as Eb.
  pose proof (Z.mod_pos_bound r 16 ltac:(lia)).
  pose proof (Z.mod_pos_bound g 16 ltac:(lia)).
  pose proof (Z.mod_pos_bound b 16 ltac:(lia)).
  assert (0 <= r / 16 < 16)%Z by (split; [apply Z.div_pos | apply Z.div_lt_upper_bound]; lia).
  assert (0 <= g / 16 < 16)%Z by (split; [apply Z.div_pos | apply Z.div_lt_upper_bound]; lia).
  assert (0 <= b / 16 < 16)%Z by (split; [apply Z.div_pos | apply Z.div_lt_upper_bound]; lia).
  change (parseInt16
            (String (hexdigit (r / 16)) (String (hexdigit (r mod 16))
            (String (hexdigit (g / 16)) (String (hexdigit (g mod 16))
            (String (hexdigit (b / 16)) (String (hexdigit (b mod 16))
             EmptyString))))))
          = Some (r * 65536 + g * 256 + b)%Z).
  rewrite parseInt16_two_digits by done.
  rewrite !hexdigit_parse by done. cbn [hex_prefix default].
  unfold Datatypes.id. f_equal. lia.
Qed.

Lemma lighten_amount_nonneg (percent : Z) :
  (0 <= percent)%Z → (0 <= lighten_amount percent)%Z.
Proof. intros Hp. unfold lighten_amount. apply Z.div_pos; lia. Qed.

Lemma lightenColor_value (color : string) (num percent : Z) :
  parseInt16 (replace_hash color) = Some num →
  (0 <= num < 16777216)%Z → (0 <= percent)%Z →
  let amt := lighten_amount percent in
  let r := Z.min 255 (num / 65536 + amt) in
  let g := Z.min 255 (num / 256 mod 256 + amt) in
  let b := Z.min 255 (num mod 256 + amt) in
  lightenColor (Css color) percent = Some (css_rgb r g b) ∧
  (num / 65536 <= r <= 255)%Z ∧ (num / 256 mod 256 <= g <= 255)%Z ∧
  (num mod 256 <= b <= 255)%Z ∧ (0 <= num / 65536)%Z.
Proof.
  intros Hnum Hrange Hp amt r g b.
  pose proof (lighten_amount_nonneg percent Hp) as Hamt. fold amt in Hamt.
  assert (Hr0 : (0 <= num / 65536 <= 255)%Z).
  { split; [apply Z.div_pos; lia |].
    assert (num / 65536 < 256)%Z by (apply Z.div_lt_upper_bound; lia). lia. }
  pose proof (Z.mod_pos_bound (num / 256) 256 ltac:(lia)) as Hg0.
  pose proof (Z.mod_pos_bound num 256 ltac:(lia)) as Hb0.
  assert (Hr : (0 <= r <= 255)%Z) by (subst r; lia).
  assert (Hg : (0 <= g <= 255)%Z) by (subst g; lia).
  assert (Hb : (0 <= b <= 255)%Z) by (subst b; lia).
  split_and!; try (subst r g b; lia).
  unfold lightenColor. rewrite Hnum. unfold ToInt32.
  replace ((num + 2 ^ 31) mod 2 ^ 32 - 2 ^ 31)%Z with num
    by (rewrite Z.mod_small; lia).
  assert (Hland : ∀ x : Z, Z.land x 255 = (x mod 256)%Z).
  { intros x. change 255%Z with (Z.ones 8). by rewrite Z.land_ones. }
  rewrite !Hland, !Z.shiftr_div_pow2 by lia.
  change (2 ^ 16)%Z with 65536%Z. change (2 ^ 8)%Z with 256%Z.
  fold amt. fold r g b.
  rewrite toString16_packed by done. reflexivity.
Qed.



(** X10: on such a colour, [percent = 0] gives the same colour back (in
    lower-case digits) and any [percent] of 100 or more gives white. *)
Theorem lightenColor_extremes (color : string) (num : Z) :
  parseInt16 (replace_hash color) = Some num →
  (0 <= num < 16777216)%Z →
  (∃ s, lightenColor (Css color) 0 = Some s ∧
        parseInt16 (replace_hash s) = Some num) ∧
  (∀ percent, (100 <= percent)%Z →
     lightenColor (Css color) percent = Some "#ffffff"%string).
Proof.
  intros Hnum Hrange. split.
  - destruct (lightenColor_value color num 0 Hnum Hrange ltac:(lia))
      as (Hval & Hr & Hg & Hb & Hr0).
    pose proof (Z.mod_pos_bound (num / 256) 256 ltac:(lia)) as Hg0.
    pose proof (Z.mod_pos_bound num 256 ltac:(lia)) as Hb0.
    eexists. split; [exact Hval |].
    change (lighten_amount 0) with 0%Z in *.
    rewrite parseInt16_css_rgb by lia. f_equal.
    pose proof (Z.div_mod num 65536 ltac:(lia)).
    pose proof (Z.div_mod num 256 ltac:(lia)).
    pose proof (Z.div_mod (num / 256) 256 ltac:(lia)).
    assert (num / 256 / 256 = num / 65536)%Z
      by (rewrite Z.div_div by lia; reflexivity).
    lia.
  - intros percent Hp.
    destruct (lightenColor_value color num percent Hnum Hrange ltac:(lia))
      as (Hval & Hr & Hg & Hb & Hr0).
    pose proof (Z.mod_pos_bound (num / 256) 256 ltac:(lia)) as Hg0.
    pose proof (Z.mod_pos_bound num 256 ltac:(lia)) as Hb0.
    assert (Hamt : (255 <= lighten_amount percent)%Z).
    { unfold lighten_amount. apply Z.div_le_lower_bound; lia. }
    rewrite Hval.
    rewrite !Z.min_l by lia. reflexivity.
Qed.

Lemma lightenColor_extremes_witness :
  lightenColor (Css "#3050F8") 100 = Some "#ffffff"%string.
Proof.
  exact (proj2 (lightenColor_extremes "#3050F8" 3166456 eq_refl ltac:(lia))
           100%Z ltac:(lia)).
Defined.

(** ** Appearance table *)

Lemma own_property_Some {A : Type} (o : list (string * A)) (key : string) (a : A) :
  own_property o key = Some a → (key, a) ∈ o.
Proof.
  induction o as [| [k x] o IH]; [done |]. simpl.
  destruct (String.eqb_spec k key) as [-> | Hne].
  - intros [= ->]. by left.
  - intros H. right. by apply IH.
Qed.

(** X11: for every element name that is not a member of
    [Object.prototype], [getElementRadius] is a finite radius between 6.2
    and 28 (14 when the element is not in the table); for a member name
    the lookup finds the inherited member and the radius is NaN. *)
Theorem getElementRadius_range (el : string) :
  if bool_decide (el ∈ Object_prototype_keys)
  then getElementRadius el = NaN
  else ∃ r : R, getElementRadius el = Finite r ∧ (6.2 <= r <= 28)%R ∧
                (own_property radii el = None → r = 14%R).
Proof.
  unfold getElementRadius, get_property.
  destruct (own_property radii el) as [r |] eqn:Hown.
  - apply own_property_Some in Hown.
    unfold radii in Hown.
    repeat (apply elem_of_cons in Hown as [[= -> ->] | Hown];
      [rewrite bool_decide_eq_false_2
         by (rewrite list_elem_of_In; simpl; intuition discriminate);
       eexists; split; [reflexivity |]; split; [lra | done] |]).
    by apply elem_of_nil in Hown.
  - destruct (bool_decide (el ∈ Object_prototype_keys)); [reflexivity |].
    eexists. split; [reflexivity |]. split; [lra | intros _; lra].
Qed.

(** X12: for every element name that is not a member of
    [Object.prototype], [getElementColor] is a colour string that reads
    as a 24-bit number (grey [#808080] when the element is not in the
    table), so the lighter gradient stop [lightenColor(color, 40)] is a
    well-formed colour; for a member name [getElementColor] returns the
    inherited member and [lightenColor] throws. *)
Theorem getElementColor_lightens (el : string) :
  if bool_decide (el ∈ Object_prototype_keys)
  then getElementColor el = NotAColor el ∧
       lightenColor (getElementColor el) 40 = None
  else ∃ (c : string) (num : Z),
         getElementColor el = Css c ∧
         parseInt16 (replace_hash c) = Some num ∧ (0 <= num < 16777216)%Z ∧
         (own_property colors el = None → c = "#808080"%string) ∧
         lightenColor (Css c) 40
         = Some (css_rgb (Z.min 255 (num / 65536 + 102))
                         (Z.min 255 (num / 256 mod 256 + 102))
                         (Z.min 255 (num mod 256 + 102))).
Proof.
  unfold getElementColor, get_property.
  destruct (own_property colors el) as [c |] eqn:Hown.
  - apply own_property_Some in Hown.
    unfold colors in Hown.
    repeat (apply elem_of_cons in Hown as [[= -> ->] | Hown];
      [rewrite bool_decide_eq_false_2
         by (rewrite list_elem_of_In; simpl; intuition discriminate);
       eexists _, _; split; [reflexivity |];
       split; [vm_compute; reflexivity |];
       split; [lia |]; split; [done |]; vm_compute; reflexivity |]).
    by apply elem_of_nil in Hown.
  - destruct (bool_decide (el ∈ Object_prototype_keys)); [by split |].
    eexists _, _. split; [reflexivity |]. split; [vm_compute; reflexivity |].
    split; [lia |]. split; [done |]. vm_compute. reflexivity.
Qed.

(** * Properties of the API server *)

(** ** Maps *)

Section JsMapFacts.
Context {K V : Type}.
Variable eqb : K → K → bool.
Hypothesis eqb_sound : ∀ a b, eqb a b = true → a = b.

Lemma map_get_set_same (m : list (K * V)) (k : K) (v : V) :
  eqb k k = true → map_get eqb (map_set eqb m k v) k = Some v.
Proof using Type.
  intros Hk. induction m as [| [k' v'] m IH]; simpl.
  - by rewrite Hk.
  - destruct (eqb k' k) eqn:E; simpl; rewrite E; [done | exact IH].
Qed.

Lemma map_get_set_other (m : list (K * V)) (k k' : K) (v : V) :
  eqb k k' = false → map_get eqb (map_set eqb m k v) k' = map_get eqb m k'.
Proof using eqb_sound.
  intros Hk. induction m as [| [k0 v0] m IH]; simpl.
  - by rewrite Hk.
  - destruct (eqb k0 k) eqn:E; simpl.
    + apply eqb_sound in E as ->. by rewrite Hk.
    + by rewrite IH.
Qed.

Lemma map_get_delete_other (m : list (K * V)) (k k' : K) :
  eqb k k' = false → map_get eqb (map_delete eqb m k) k' = map_get eqb m k'.
Proof using eqb_sound.
  intros Hk. induction m as [| [k0 v0] m IH]; simpl; [done |].
  destruct (eqb k0 k) eqn:E; simpl.
  - apply eqb_sound in E as ->. by rewrite Hk.
  - by rewrite IH.
Qed.

Lemma map_delete_set_fresh (m : list (K * V)) (k : K) (v : V) :
  eqb k k = true → map_get eqb m k = None →
  map_delete eqb (map_set eqb m k v) k = m.
Proof using Type.
  intros Hk. induction m as [| [k0 v0] m IH]; simpl.
  - by rewrite Hk.
  - destruct (eqb k0 k) eqn:E; [done |]. intros Hm. simpl. rewrite E.
    by rewrite IH.
Qed.

Lemma map_set_keys_present (m : list (K * V)) (k : K) (v old : V) :
  map_get eqb m k = Some old →
  map fst (map_set eqb m k v) = map fst m.
Proof using Type.
  induction m as [| [k0 v0] m IH]; simpl; [done |].
  destruct (eqb k0 k) eqn:E; simpl; [done |].
  intros Hm. by rewrite IH.
Qed.

Lemma map_set_keys_fresh (m : list (K * V)) (k : K) (v : V) :
  map_get eqb m k = None →
  map fst (map_set eqb m k v) = map fst m ++ [k].
Proof using Type.
  induction m as [| [k0 v0] m IH]; simpl; [done |].
  destruct (eqb k0 k) eqn:E; simpl; [done |].
  intros Hm. by rewrite IH.
Qed.

Lemma map_get_elem (m : list (K * V)) (k : K) (v : V) :
  map_get eqb m k = Some v → (k, v) ∈ m.
Proof using eqb_sound.
  induction m as [| [k0 v0] m IH]; simpl; [done |].
  destruct (eqb k0 k) eqn:E.
  - apply eqb_sound in E as ->. intros [= ->]. by left.
  - intros Hm. right. by apply IH.
Qed.

Lemma map_get_None_keys (m : list (K * V)) (k : K) :
  eqb k k = true → map_get eqb m k = None → k ∉ map fst m.
Proof using Type.
  intros Hk. induction m as [| [k0 v0] m IH]; simpl.
  - intros _ H. by apply elem_of_nil in H.
  - destruct (eqb k0 k) eqn:E; [done |]. intros Hm [<- | Hin]%elem_of_cons.
    + by rewrite Hk in E.
    + by apply IH.
Qed.

(** What [set] leaves in the map: the new entry, and the old entries
    under other keys. *)
Lemma map_set_elem (m : list (K * V)) (k : K) (v : V) (e : K * V) :
  (∀ a, eqb a a = true) → NoDup (map fst m) →
  e ∈ map_set eqb m k v → e = (k, v) ∨ (e ∈ m ∧ e.1 ≠ k).
Proof using eqb_sound.
  intros Hrefl. induction m as [| [k0 v0] m IH]; simpl; intros Hnd.
  - intros ->%list_elem_of_singleton. by left.
  - apply NoDup_cons in Hnd as [Hk0 Hnd].
    destruct (eqb k0 k) eqn:E.
    + apply eqb_sound in E as ->.
      intros [-> | He]%elem_of_cons; [by left |].
      right. split; [by right |]. intros <-. apply Hk0.
      apply list_elem_of_fmap. by exists e.
    + intros [-> | He]%elem_of_cons.
      * right. split; [by left |]. simpl. intros ->. by rewrite Hrefl in E.
      * destruct (IH Hnd He) as [-> | [Hin Hne]]; [by left |].
        right. split; [by right | done].
Qed.

Lemma map_delete_sublist (m : list (K * V)) (k : K) :
  sublist (map_delete eqb m k) m.
Proof using Type.
  induction m as [| [k0 v0] m IH]; simpl; [done |].
  destruct (eqb k0 k); [by apply sublist_cons | by apply sublist_skip].
Qed.

Lemma map_set_NoDup (m : list (K * V)) (k : K) (v : V) :
  (∀ a, eqb a a = true) → NoDup (map fst m) →
  NoDup (map fst (map_set eqb m k v)).
Proof using Type.
  intros Hrefl Hnd. destruct (map_get eqb m k) as [old |] eqn:Hget.
  - by rewrite (map_set_keys_present _ _ _ _ Hget).
  - rewrite (map_set_keys_fresh _ _ _ Hget).
    apply NoDup_app. split_and!; [done | | apply NoDup_singleton].
    intros x Hx Hk%list_elem_of_singleton. subst x.
    by apply (map_get_None_keys m k (Hrefl k) Hget).
Qed.
End JsMapFacts.

Lemma same_value_zero_sound (a b : Value) : same_value_zero a b = true → a = b.
Proof.
  destruct a as [| | x | [x | | |] | x | x], b as [| | y | [y | | |] | y | y];
    simpl; try done.
  - by intros ->%Bool.eqb_prop.
  - destruct (Req_dec_T x y) as [-> |]; done.
  - by intros ->%String.eqb_eq.
Qed.

Lemma strict_equal_sound (a b : Value) : strict_equal a b = true → a = b.
Proof.
  destruct a as [| | x | [x | | |] | x | x], b as [| | y | [y | | |] | y | y];
    simpl; try done.
  - by intros ->%Bool.eqb_prop.
  - destruct (Req_dec_T x y) as [-> |]; done.
  - by intros ->%String.eqb_eq.
Qed.

Lemma String_eqb_sound (a b : string) : String.eqb a b = true → a = b.
Proof. apply String.eqb_eq. Qed.

(** ** Routes *)

Section ServerProperties.
Variable jwt_verify : string → Z → option Value.
Variable jwt_sign : Value → Z → string.
Variable bcrypt_hash : Value → string → option string.
Variable bcrypt_compare : Value → string → option bool.

(** X13: a request that the middleware turns away is answered 401 when
    the header carries no token (no header, or nothing after the first
    space) and 403 when the token does not verify; whichever
    visualization route it was for, the stores are left as they were. *)
Theorem denied_requests_change_nothing
  (authHeader : option string) (now : Z) (st : Server) (r : Response)
  (name moleculeId settings : Value) (iso id : string) :
  authenticateToken jwt_verify authHeader now = Denied r →
  (status r = 401%nat ∧ bearer_token authHeader = None ∨
   status r = 403%nat ∧
   ∃ token, bearer_token authHeader = Some token ∧
            jwt_verify token now = None) ∧
  get_visualizations jwt_verify authHeader now st = r ∧
  post_visualizations jwt_verify authHeader name moleculeId settings now iso st
  = (st, r) ∧
  delete_visualizations jwt_verify authHeader id now st = (st, r).
Proof.
  intros Hauth.
  unfold get_visualizations, post_visualizations, delete_visualizations.
  rewrite Hauth. split_and!; try done.
  unfold authenticateToken in Hauth.
  destruct (bearer_token authHeader) as [token |] eqn:Htoken.
  - destruct (jwt_verify token now) eqn:Hverify; [done |].
    injection Hauth as <-. right. split; [done |]. by exists token.
  - injection Hauth as <-. by left.
Qed.

(** X14: a DELETE by an authenticated user never touches the accounts,
    changes nothing unless it answers 200, and in every case leaves in
    place each visualization whose owner is not that user. *)
Theorem delete_spares_other_users
  (authHeader : option string) (id : string) (now : Z) (st : Server)
  (username : Value) :
  authenticateToken jwt_verify authHeader now = Authenticated username →
  let st' := (delete_visualizations jwt_verify authHeader id now st).1 in
  let r := (delete_visualizations jwt_verify authHeader id now st).2 in
  users st' = users st ∧
  (status r ≠ 200%nat → st' = st) ∧
  (∀ id' v',
     map_get String.eqb (savedVisualizations st) id' = Some v' →
     strict_equal (viz_username v') username = false →
     map_get String.eqb (savedVisualizations st') id' = Some v').
Proof.
  intros Hauth. unfold delete_visualizations. rewrite Hauth.
  destruct (map_get String.eqb (savedVisualizations st) id) as [viz |] eqn:Hget;
    [| by simpl].
  destruct (strict_equal (viz_username viz) username) eqn:Hown; simpl;
    [| done].
  split_and!; [done | done |].
  intros id' v' Hget' Hother.
  rewrite (map_get_delete_other _ String_eqb_sound); [done |].
  apply String.eqb_neq. intros <-. rewrite Hget in Hget'.
  injection Hget' as <-. by rewrite Hown in Hother.
Qed.

(** X15: a POST by an authenticated user with a truthy name and molecule
    id answers 200 with the new visualization, stored under the id
    [Date.now().toString()] with that user as owner; every other id
    keeps what it had; and when the user name is one that [===]
    recognises (a string, a number, a boolean: not an object), a later
    GET by that user lists the new visualization. *)
Theorem post_stores_and_lists
  (authHeader : option string) (name moleculeId settings : Value)
  (now : Z) (iso : string) (st : Server) (username : Value) :
  authenticateToken jwt_verify authHeader now = Authenticated username →
  truthy name = true → truthy moleculeId = true →
  let st' := (post_visualizations jwt_verify authHeader name moleculeId
                settings now iso st).1 in
  let r := (post_visualizations jwt_verify authHeader name moleculeId
              settings now iso st).2 in
  ∃ viz,
    r = {| status := 200; body := VisualizationBody viz |} ∧
    viz_id viz = pretty now ∧ viz_username viz = username ∧
    viz_name viz = name ∧ viz_moleculeId viz = moleculeId ∧
    users st' = users st ∧
    map_get String.eqb (savedVisualizations st') (pretty now) = Some viz ∧
    (∀ id', id' ≠ pretty now →
       map_get String.eqb (savedVisualizations st') id'
       = map_get String.eqb (savedVisualizations st) id') ∧
    (strict_equal username username = true →
     ∀ authHeader' now',
       authenticateToken jwt_verify authHeader' now' = Authenticated username →
       ∃ vs, get_visualizations jwt_verify authHeader' now' st'
             = {| status := 200; body := VisualizationsBody vs |} ∧
             viz ∈ vs).
Proof.
  intros Hauth Hname Hmol. unfold post_visualizations.
  rewrite Hauth, Hname, Hmol. simpl. eexists. split; [reflexivity |].
  split_and!; try done.
  - apply map_get_set_same, String.eqb_refl.
  - intros id' Hne. apply (map_get_set_other _ String_eqb_sound).
    by apply String.eqb_neq.
  - intros Hself authHeader' now' Hauth'. unfold get_visualizations.
    rewrite Hauth'. eexists. split; [reflexivity |].
    apply list_elem_of_In, filter_In. split; [| exact Hself].
    apply list_elem_of_In. unfold map_values.
    eapply (list_elem_of_fmap_2' snd);
      [apply (map_get_elem _ String_eqb_sound _ (pretty now));
       apply map_get_set_same, String.eqb_refl | done].
Qed.

Lemma post_keeps_store_ok
  (authHeader : option string) (name moleculeId settings : Value)
  (now : Z) (iso : string) (st : Server) :
  store_ok st →
  store_ok (post_visualizations jwt_verify authHeader name moleculeId
              settings now iso st).1.
Proof.
  intros [Hnd Hid]. unfold post_visualizations.
  destruct (authenticateToken jwt_verify authHeader now); [done |].
  destruct (negb (truthy name) || negb (truthy moleculeId)); [done |].
  split; simpl.
  - apply map_set_NoDup; [apply String.eqb_refl | done].
  - apply Forall_forall. intros e He.
    apply (map_set_elem _ String_eqb_sound) in He
      as [-> | [He _]]; [done | | apply String.eqb_refl | done].
    rewrite Forall_forall in Hid. by apply Hid.
Qed.

Lemma delete_keeps_store_ok
  (authHeader : option string) (id : string) (now : Z) (st : Server) :
  store_ok st →
  store_ok (delete_visualizations jwt_verify authHeader id now st).1.
Proof.
  intros [Hnd Hid]. unfold delete_visualizations.
  destruct (authenticateToken jwt_verify authHeader now); [done |].
  destruct (map_get String.eqb (savedVisualizations st) id); [| done].
  destruct (negb (strict_equal _ _)); [done |].
  pose proof (map_delete_sublist String.eqb (savedVisualizations st) id) as Hs.
  split; simpl.
  - eapply sublist_NoDup; [exact Hnd | by apply fmap_sublist].
  - apply Forall_forall. intros e He. rewrite Forall_forall in Hid.
    apply Hid. by eapply elem_of_sublist.
Qed.

(** X16: the id is the millisecond of the request, and nothing checks it
    for being new.  A POST that arrives in the millisecond of a stored
    visualization answers 200 and takes that entry's place, whoever owns
    it: the store keeps the same ids in the same order, the id now gives
    the new visualization, and the old one is no longer in the store. *)
Theorem post_in_same_millisecond_replaces
  (authHeader : option string) (name moleculeId settings : Value)
  (now : Z) (iso : string) (st : Server) (username : Value)
  (old : Visualization) :
  store_ok st →
  authenticateToken jwt_verify authHeader now = Authenticated username →
  truthy name = true → truthy moleculeId = true →
  map_get String.eqb (savedVisualizations st) (pretty now) = Some old →
  let st' := (post_visualizations jwt_verify authHeader name moleculeId
                settings now iso st).1 in
  let r := (post_visualizations jwt_verify authHeader name moleculeId
              settings now iso st).2 in
  ∃ viz,
    r = {| status := 200; body := VisualizationBody viz |} ∧
    viz_username viz = username ∧
    map fst (savedVisualizations st') = map fst (savedVisualizations st) ∧
    map_get String.eqb (savedVisualizations st') (pretty now) = Some viz ∧
    (old ≠ viz → old ∉ map_values (savedVisualizations st')).
Proof.
  intros [Hnd Hid] Hauth Hname Hmol Hold. unfold post_visualizations.
  rewrite Hauth, Hname, Hmol. simpl. eexists. split; [reflexivity |].
  split_and!; try done.
  - by apply (map_set_keys_present _ _ _ _ old).
  - apply map_get_set_same, String.eqb_refl.
  - intros Hne (e & -> & He)%list_elem_of_fmap.
    apply (map_set_elem _ String_eqb_sound) in He
      as [-> | [He Hkey]]; [done | | apply String.eqb_refl | done].
    rewrite Forall_forall in Hid. pose proof (Hid e He) as Hide.
    apply (map_get_elem _ String_eqb_sound) in Hold.
    pose proof (Hid _ Hold) as Hido. simpl in Hido.
    apply Hkey. by rewrite <- Hide, Hido.
Qed.

(** X17: when the millisecond is new to the store and the user name is
    one that [===] recognises, a POST followed by a DELETE of the
    returned id by the same user answers 200 and gives back exactly the
    store there was before. *)
Theorem post_then_delete_restores
  (authHeader authHeader' : option string) (name moleculeId settings : Value)
  (now now' : Z) (iso : string) (st : Server) (username : Value) :
  authenticateToken jwt_verify authHeader now = Authenticated username →
  authenticateToken jwt_verify authHeader' now' = Authenticated username →
  strict_equal username username = true →
  truthy name = true → truthy moleculeId = true →
  map_get String.eqb (savedVisualizations st) (pretty now) = None →
  delete_visualizations jwt_verify authHeader' (pretty now) now'
    (post_visualizations jwt_verify authHeader name moleculeId settings
       now iso st).1
  = (st, {| status := 200; body := SuccessBody |}).
Proof.
  intros Hauth Hauth' Hself Hname Hmol Hfresh.
  unfold post_visualizations. rewrite Hauth, Hname, Hmol. simpl.
  unfold delete_visualizations. rewrite Hauth'. simpl.
  rewrite map_get_set_same by apply String.eqb_refl. simpl.
  rewrite Hself. simpl.
  rewrite map_delete_set_fresh by (apply String.eqb_refl || done).
  by destruct st.
Qed.

Lemma register_begin_awaiting (username password : Value) (st : Server) :
  register_begin username password st = Awaiting →
  truthy username = true ∧ truthy password = true ∧
  map_get same_value_zero (users st) username = None.
Proof.
  unfold register_begin, map_has.
  destruct (truthy username), (truthy password); simpl; try done.
  by destruct (map_get same_value_zero (users st) username).
Qed.

(** X18: a registration that runs without another request in between
    never touches the visualizations, answers 400 and changes nothing
    when the name is taken, and in every case leaves each existing
    account as it was. *)
Theorem register_keeps_existing_accounts
  (username password : Value) (salt : string) (now : Z) (iso : string)
  (st : Server) :
  let st' := (register jwt_sign bcrypt_hash username password salt now iso st).1 in
  let r := (register jwt_sign bcrypt_hash username password salt now iso st).2 in
  savedVisualizations st' = savedVisualizations st ∧
  (map_has same_value_zero (users st) username = true →
   st' = st ∧ status r = 400%nat) ∧
  (∀ u' account,
     map_get same_value_zero (users st) u' = Some account →
     map_get same_value_zero (users st') u' = Some account).
Proof.
  unfold register.
  destruct (register_begin username password st) as [r0 |] eqn:Hbegin.
  - simpl. split_and!; [done | | done].
    intros Hhas. split; [done |].
    unfold register_begin in Hbegin. rewrite Hhas in Hbegin.
    destruct (negb (truthy username) || negb (truthy password));
      by injection Hbegin as <-.
  - apply register_begin_awaiting in Hbegin as (_ & _ & Hfresh).
    unfold register_finish.
    destruct (bcrypt_hash password salt) as [h |]; simpl.
    + split_and!; [done | |].
      * unfold map_has. by rewrite Hfresh.
      * intros u' account Hget.
        rewrite (map_get_set_other _ same_value_zero_sound); [done |].
        destruct (same_value_zero username u') eqn:E; [| done].
        apply same_value_zero_sound in E as ->. by rewrite Hfresh in Hget.
    + split_and!; [done | | done].
      unfold map_has. by rewrite Hfresh.
Qed.

(** X19: the name is checked before [await bcrypt.hash] and the account
    is written after it.  Two registrations of one new name that both
    pass the check before either is written both answer 200, and there is
    one account, holding the hash of the registration that finished last:
    the password of the other no longer opens it. *)
Theorem overlapping_registrations_overwrite
  (username p1 p2 : Value) (salt1 salt2 : string) (now1 now2 : Z)
  (iso1 iso2 : string) (st : Server) (h1 h2 : string) :
  register_begin username p1 st = Awaiting →
  truthy p2 = true →
  same_value_zero username username = true →
  bcrypt_hash p1 salt1 = Some h1 → bcrypt_hash p2 salt2 = Some h2 →
  let st1 := (register_finish jwt_sign bcrypt_hash username p1 salt1 now1 iso1 st).1 in
  let r1 := (register_finish jwt_sign bcrypt_hash username p1 salt1 now1 iso1 st).2 in
  let st2 := (register_finish jwt_sign bcrypt_hash username p2 salt2 now2 iso2 st1).1 in
  let r2 := (register_finish jwt_sign bcrypt_hash username p2 salt2 now2 iso2 st1).2 in
  register_begin username p2 st = Awaiting ∧
  status r1 = 200%nat ∧ status r2 = 200%nat ∧
  map fst (users st2) = map fst (users st) ++ [username] ∧
  map_get same_value_zero (users st2) username
  = Some {| user_username := username; user_password := h2;
            user_createdAt := iso2 |} ∧
  (bcrypt_compare p1 h2 = Some false →
   ∀ now, status (login jwt_sign bcrypt_compare username p1 now st2) = 401%nat).
Proof.
  intros Hbegin Hp2 Hself Hh1 Hh2.
  pose proof (register_begin_awaiting _ _ _ Hbegin) as (Hu & Hp1 & Hfresh).
  unfold register_finish. rewrite Hh1. simpl. rewrite Hh2. simpl.
  split_and!; try done.
  - unfold register_begin, map_has. by rewrite Hu, Hp2, Hfresh.
  - rewrite (map_set_keys_present _ _ _ _
               {| user_username := username; user_password := h1;
                  user_createdAt := iso1 |}).
    + by apply map_set_keys_fresh.
    + by apply map_get_set_same.
  - by apply map_get_set_same.
  - intros Hcmp now. unfold login. simpl.
    rewrite map_get_set_same by done. simpl. by rewrite Hcmp.
Qed.

(** X20: after a registration that went through, a login under that name
    is decided by [bcrypt.compare] against the hash that the registration
    stored: 200 with a token when it matches, 401 when it does not, 500
    when the comparison fails; and a name with no account gets 401. *)
Theorem register_then_login
  (username password : Value) (salt : string) (now : Z) (iso : string)
  (st : Server) (h : string) (attempt : Value) (now' : Z) :
  register_begin username password st = Awaiting →
  same_value_zero username username = true →
  bcrypt_hash password salt = Some h →
  let st' := (register jwt_sign bcrypt_hash username password salt now iso st).1 in
  login jwt_sign bcrypt_compare username attempt now' st'
  = match bcrypt_compare attempt h with
    | Some true =>
        {| status := 200; body := TokenBody (jwt_sign username now') username |}
    | Some false => {| status := 401; body := ErrorBody "Invalid credentials" |}
    | None => {| status := 500; body := ErrorBody "Login failed" |}
    end ∧
  (∀ other,
     map_get same_value_zero (users st') other = None →
     login jwt_sign bcrypt_compare other attempt now' st'
     = {| status := 401; body := ErrorBody "Invalid credentials" |}).
Proof.
  intros Hbegin Hself Hh. unfold register. rewrite Hbegin.
  unfold register_finish. rewrite Hh. simpl. split.
  - unfold login. simpl. rewrite map_get_set_same by done. simpl.
    by destruct (bcrypt_compare attempt h) as [[] |].
  - intros other Hnone. unfold login. simpl in *. by rewrite Hnone.
Qed.

Lemma map_get_object (m : list (Value * UserRecord)) (json : string) :
  map_get same_value_zero m (VObject json) = None.
Proof.
  induction m as [| [k v] m IH]; [done |]. simpl.
  by destruct k as [| | b | [x | | |] | s | j].
Qed.

(** X21: a user name that arrives as a JSON object or array is never
    found in the map, since each request brings a new object: such a
    registration is never refused as taken, each one adds another
    account, and no login under such a name gets past 401. *)
Theorem object_usernames_never_match
  (json : string) (password : Value) (salt : string) (now : Z) (iso : string)
  (st : Server) (h : string) :
  truthy password = true →
  bcrypt_hash password salt = Some h →
  let st' := (register jwt_sign bcrypt_hash (VObject json) password salt
                now iso st).1 in
  let r := (register jwt_sign bcrypt_hash (VObject json) password salt
              now iso st).2 in
  status r = 200%nat ∧
  length (users st') = S (length (users st)) ∧
  ∀ attempt now',
    login jwt_sign bcrypt_compare (VObject json) attempt now' st'
    = {| status := 401; body := ErrorBody "Invalid credentials" |}.
Proof.
  intros Hp Hh. unfold register, register_begin, map_has.
  rewrite map_get_object, Hp. simpl.
  unfold register_finish. rewrite Hh. simpl. split_and!; [done | |].
  - assert (Hlen : ∀ (m : list (Value * UserRecord)) v,
      length (map_set same_value_zero m (VObject json) v) = S (length m)).
    { intros m v. induction m as [| [k x] m IH]; [done |]. simpl.
      destruct k as [| | b | [y | | |] | s | j]; simpl; by rewrite IH. }
    apply Hlen.
  - intros attempt now'. unfold login. by rewrite map_get_object.
Qed.
End ServerProperties.

Lemma store_ok_server0 : store_ok server0.
Proof. split; constructor. Qed.

Lemma denied_requests_change_nothing_witness :
  get_visualizations sample_verify (Some "Bearer") 0 server0
  = {| status := 401; body := ErrorBody "Access token required" |}.
Proof.
  exact (proj1 (proj2 (denied_requests_change_nothing sample_verify
           (Some "Bearer") 0 server0 _ VNull VNull VNull "" "" eq_refl))).
Defined.

Lemma sample_store_ok : store_ok sample_store.
Proof. apply post_keeps_store_ok, store_ok_server0. Qed.

Lemma delete_spares_other_users_witness :
  ∃ v',
    map_get String.eqb
      (savedVisualizations
         (delete_visualizations sample_verify (Some "Bearer bob")
            "1700000000000" 1700000000001 sample_store).1)
      "1700000000000" = Some v' ∧
    viz_username v' = VString "ann".
Proof.
  eexists. split.
  - apply (proj2 (proj2 (delete_spares_other_users sample_verify
             (Some "Bearer bob") "1700000000000" 1700000000001 sample_store
             (VString "bob") eq_refl)));
      reflexivity.
  - reflexivity.
Defined.

Lemma post_stores_and_lists_witness :
  ∃ viz,
    map_get String.eqb (savedVisualizations sample_store) "1700000000000"
    = Some viz ∧
    viz_username viz = VString "ann" ∧ viz_settings viz = VObject "{}".
Proof.
  destruct (post_stores_and_lists sample_verify (Some "Bearer ann")
              (VString "view") (VString "water") VUndefined 1700000000000
              "2023-11-14T22:13:20.000Z" server0 (VString "ann")
              eq_refl eq_refl eq_refl)
    as (viz & Hr & _ & Hu & _ & _ & _ & Hget & _).
  exists viz. split_and!; [exact Hget | exact Hu |].
  injection Hr as <-. reflexivity.
Defined.

Lemma post_in_same_millisecond_replaces_witness :
  ∃ viz,
    map_get String.eqb
      (savedVisualizations
         (post_visualizations sample_verify (Some "Bearer bob")
            (VString "mine") (VString "methane") VUndefined 1700000000000
            "2023-11-14T22:13:20.000Z" sample_store).1)
      "1700000000000" = Some viz ∧
    viz_username viz = VString "bob".
Proof.
  destruct (post_in_same_millisecond_replaces sample_verify
              (Some "Bearer bob") (VString "mine") (VString "methane")
              VUndefined 1700000000000 "2023-11-14T22:13:20.000Z"
              sample_store (VString "bob") _
              sample_store_ok eq_refl eq_refl eq_refl eq_refl)
    as (viz & _ & Hu & _ & Hget & _).
  exists viz. split; [exact Hget | exact Hu].
Defined.

Lemma post_then_delete_restores_witness :
  delete_visualizations sample_verify (Some "Bearer ann") "1700000000000"
    1700000000005 sample_store
  = (server0, {| status := 200; body := SuccessBody |}).
Proof.
  exact (post_then_delete_restores sample_verify (Some "Bearer ann")
           (Some "Bearer ann") (VString "view") (VString "water") VUndefined
           1700000000000 1700000000005 "2023-11-14T22:13:20.000Z" server0
           (VString "ann") eq_refl eq_refl eq_refl eq_refl eq_refl eq_refl).
Defined.

Lemma overlapping_registrations_overwrite_witness :
  let st1 := (register_finish sample_sign sample_hash (VString "ann")
                (VString "first") "s1" 1 "t1" server0).1 in
  let st2 := (register_finish sample_sign sample_hash (VString "ann")
                (VString "second") "s2" 2 "t2" st1).1 in
  status (login sample_sign sample_compare (VString "ann") (VString "first")
            3 st2) = 401%nat.
Proof.
  intros st1 st2.
  exact (proj2 (proj2 (proj2 (proj2 (proj2
           (overlapping_registrations_overwrite sample_sign sample_hash
              sample_compare (VString "ann") (VString "first")
              (VString "second") "s1" "s2" 1 2 "t1" "t2" server0
              "first" "second" eq_refl eq_refl eq_refl eq_refl eq_refl)))))
           eq_refl 3%Z).
Defined.

Lemma register_then_login_witness :
  status (login sample_sign sample_compare (VString "ann") (VString "pw") 9
            (register sample_sign sample_hash (VString "ann") (VString "pw")
               "salt" 1 "t1" server0).1) = 200%nat.
Proof.
  pose proof (proj1 (register_then_login sample_sign sample_hash
                       sample_compare (VString "ann") (VString "pw") "salt"
                       1 "t1" server0 "pw" (VString "pw") 9
                       eq_refl eq_refl eq_refl)) as H.
  by rewrite H.
Defined.

Lemma object_usernames_never_match_witness :
  status (login sample_sign sample_compare (VObject "{}") (VString "pw") 9
            (register sample_sign sample_hash (VObject "{}") (VString "pw")
               "salt" 1 "t1" server0).1) = 401%nat.
Proof.
  pose proof (proj2 (proj2 (object_usernames_never_match sample_sign
                sample_hash sample_compare "{}" (VString "pw") "salt" 1 "t1"
                server0 "pw" eq_refl eq_refl)) (VString "pw") 9%Z) as H.
  by rewrite H.
Defined.
